(** * Car_Chooser: the decision core of [streamlit_app.py]

    A shallow embedding of the incentive resolver, the TCO calculator, the
    scoring engine, the preference filter and the powertrain advisor, with
    the properties the specification states about them; then of the ranking
    that [main] builds from them and of the catalog import of
    [load_vehicle_database], with further properties read off the code.

    Conventions of the embedding.
    - Python [int] fields of the dataclasses are [Z]; Python [float]
      quantities (and the numeric entries of a vehicle dict, which hold
      either) are exact rationals [Q]: the rounding of binary64 arithmetic
      is not modelled, except by [annual_fuel_cost_binary64], which
      evaluates one formula in IEEE arithmetic.
    - A vehicle is a Python dict read only through [.get(key, default)]:
      it is a record whose fields are the keys, each one optional.
    - [/] raises [ZeroDivisionError] on a zero divisor: a function that
      divides lives in the [result] monad. *)

From Stdlib Require Import QArith Qround Lqa ZArith Lia String Ascii Floats.
From stdpp Require Import base option list strings gmap sorting.

Local Open Scope string_scope.
Local Open Scope Q_scope.

(** ** Python primitives *)

Inductive exn := ZeroDivisionError | ValueError.

Inductive result (A : Type) :=
  | Ok (a : A)
  | Raise (e : exn).
Arguments Ok {A} a.
Arguments Raise {A} e.

#[global] Instance result_ret : MRet result := λ A a, Ok a.
#[global] Instance result_bind : MBind result := λ A B f m,
  match m with
  | Ok a => f a
  | Raise e => Raise e
  end.

Definition returns {A} (m : result A) : Prop := ∃ a, m = Ok a.

(** Comparisons of numbers, as booleans. *)
Definition Qleb (x y : Q) : bool := Qle_bool x y.
Definition Qltb (x y : Q) : bool := negb (Qle_bool y x).
Definition Qgeb (x y : Q) : bool := Qle_bool y x.
Definition Qgtb (x y : Q) : bool := negb (Qle_bool x y).
Infix "<=?" := Qleb (at level 70) : Q_scope.
Infix "<?" := Qltb (at level 70) : Q_scope.
Infix ">=?" := Qgeb (at level 70) : Q_scope.
Infix ">?" := Qgtb (at level 70) : Q_scope.

(** [a / b] *)
Definition truediv (a b : Q) : result Q :=
  if Qeq_bool b 0 then Raise ZeroDivisionError else Ok (a / b).

(** [min(a, b)]: the first argument unless the second is strictly smaller. *)
Definition py_min (a b : Q) : Q := if b <? a then b else a.

(** Nearest integer, ties to the even one. *)
Definition round_half_even (x : Q) : Z :=
  let n := Qfloor x in
  let frac := x - inject_Z n in
  if frac <? 0.5 then n
  else if frac >? 0.5 then (n + 1)%Z
  else if Z.even n then n else (n + 1)%Z.

(** [round(x, ndigits)] *)
Definition py_round (x : Q) (ndigits : Z) : Q :=
  let scale := inject_Z (10 ^ ndigits) in
  inject_Z (round_half_even (x * scale)) / scale.

(** [d.get(key, default)] on an optional field. *)
Definition get {A} (field : option A) (dflt : A) : A := default dflt field.

(** Truth value of [d.get(key)] for a flag: [None] is false. *)
Definition truthy (field : option bool) : bool := get field false.

(** [d.get(key) in l]: an absent key reads [None], which no list of
    strings holds. *)
Definition py_in (field : option string) (l : list string) : bool :=
  match field with
  | Some s => bool_decide (s ∈ l)
  | None => false
  end.

(** ** Enums and data classes *)

Inductive VehicleType :=
  SEDAN | SUV | HATCHBACK | TRUCK | CROSSOVER | WAGON | MINIVAN.

Definition VehicleType_value (vt : VehicleType) : string :=
  match vt with
  | SEDAN => "sedan"
  | SUV => "suv"
  | HATCHBACK => "hatchback"
  | TRUCK => "truck"
  | CROSSOVER => "crossover"
  | WAGON => "wagon"
  | MINIVAN => "minivan"
  end.

(** [VehicleType(s)]: the member whose value is [s], or [ValueError]. *)
Definition VehicleType_of_value (s : string) : result VehicleType :=
  if String.eqb s "sedan" then Ok SEDAN
  else if String.eqb s "suv" then Ok SUV
  else if String.eqb s "hatchback" then Ok HATCHBACK
  else if String.eqb s "truck" then Ok TRUCK
  else if String.eqb s "crossover" then Ok CROSSOVER
  else if String.eqb s "wagon" then Ok WAGON
  else if String.eqb s "minivan" then Ok MINIVAN
  else Raise ValueError.

Inductive Region :=
  | USA_FEDERAL | USA_CALIFORNIA | USA_COLORADO | USA_NEW_JERSEY
  | USA_NEW_YORK | USA_TEXAS
  | CANADA_FEDERAL | CANADA_QUEBEC | CANADA_BC | CANADA_ONTARIO
  | UK | GERMANY | FRANCE | NETHERLANDS | NORWAY | AUSTRALIA | PORTUGAL.

Definition Region_value (r : Region) : string :=
  match r with
  | USA_FEDERAL => "usa_federal"
  | USA_CALIFORNIA => "usa_california"
  | USA_COLORADO => "usa_colorado"
  | USA_NEW_JERSEY => "usa_new_jersey"
  | USA_NEW_YORK => "usa_new_york"
  | USA_TEXAS => "usa_texas"
  | CANADA_FEDERAL => "canada_federal"
  | CANADA_QUEBEC => "canada_quebec"
  | CANADA_BC => "canada_bc"
  | CANADA_ONTARIO => "canada_ontario"
  | UK => "uk"
  | GERMANY => "germany"
  | FRANCE => "france"
  | NETHERLANDS => "netherlands"
  | NORWAY => "norway"
  | AUSTRALIA => "australia"
  | PORTUGAL => "portugal"
  end.

Record UserPreferences := {
  daily_commute_km : Q;
  annual_km : Q;
  long_trips_frequency : string;
  typical_long_trip_km : Q;
  home_charging_available : bool;
  home_charging_type : string;
  work_charging_available : bool;
  public_charging_reliance : string;
  max_budget : Q;
  min_budget : Q;
  consider_incentives : bool;
  region : Region;
  ownership_years : Z;
  expected_resale_percent : Q;
  electricity_cost_kwh : Q;
  gas_cost_liter : Q;
  vehicle_types : list VehicleType;
  min_seats : Z;
  min_cargo_liters : Z;
  needs_awd : bool;
  needs_towing : bool;
  min_towing_kg : Z;
  range_priority : Z;
  charging_speed_priority : Z;
  acceleration_priority : Z;
  efficiency_priority : Z;
  tech_features_priority : Z;
  safety_priority : Z;
  reliability_priority : Z;
  cargo_priority : Z;
  zero_emissions_priority : Z;
  preferred_brands : list string;
  excluded_brands : list string
}.

(** The dataclass defaults. *)
Definition default_preferences : UserPreferences := {|
  daily_commute_km := 50;
  annual_km := 20000;
  long_trips_frequency := "rarely";
  typical_long_trip_km := 400;
  home_charging_available := true;
  home_charging_type := "level2";
  work_charging_available := false;
  public_charging_reliance := "low";
  max_budget := 50000;
  min_budget := 0;
  consider_incentives := true;
  region := USA_FEDERAL;
  ownership_years := 5;
  expected_resale_percent := 50;
  electricity_cost_kwh := 0.15;
  gas_cost_liter := 1.50;
  vehicle_types := [SEDAN; SUV];
  min_seats := 5;
  min_cargo_liters := 300;
  needs_awd := false;
  needs_towing := false;
  min_towing_kg := 0;
  range_priority := 3;
  charging_speed_priority := 3;
  acceleration_priority := 2;
  efficiency_priority := 3;
  tech_features_priority := 3;
  safety_priority := 4;
  reliability_priority := 4;
  cargo_priority := 3;
  zero_emissions_priority := 3;
  preferred_brands := [];
  excluded_brands := []
|}.

(** The keys of a vehicle dict that the core reads. *)
Record Vehicle := {
  name : option string;
  brand : option string;
  powertrain : option string;
  vehicle_type : option string;
  base_price : option Q;
  range_km : option Q;
  dc_charging_kw : option Q;
  zero_to_100_kmh : option Q;
  kwh_per_100km : option Q;
  l_per_100km : option Q;
  cargo_liters : option Q;
  seats : option Q;
  awd : option bool;
  towing_capacity_kg : option Q;
  safety_rating_ncap : option Q;
  reliability_score : option Q;
  autopilot_available : option bool;
  ota_updates : option bool;
  heat_pump : option bool;
  v2l_capable : option bool;
  v2h_capable : option bool;
  made_in_north_america : option bool
}.

(** The dict with none of these keys. *)
Definition empty_vehicle : Vehicle := {|
  name := None; brand := None; powertrain := None; vehicle_type := None;
  base_price := None; range_km := None; dc_charging_kw := None;
  zero_to_100_kmh := None; kwh_per_100km := None; l_per_100km := None;
  cargo_liters := None; seats := None; awd := None;
  towing_capacity_kg := None; safety_rating_ncap := None;
  reliability_score := None; autopilot_available := None;
  ota_updates := None; heat_pump := None; v2l_capable := None;
  v2h_capable := None; made_in_north_america := None
|}.

(** First entry of [load_vehicle_database]. *)
Definition tesla_model_3_sr : Vehicle := {|
  name := Some "Tesla Model 3 Standard Range"; brand := Some "Tesla";
  powertrain := Some "EV"; vehicle_type := Some "sedan";
  base_price := Some 40240; range_km := Some 438;
  dc_charging_kw := Some 170; zero_to_100_kmh := Some 6.1;
  kwh_per_100km := Some 13.7; l_per_100km := None;
  cargo_liters := Some 561; seats := Some 5; awd := Some false;
  towing_capacity_kg := Some 0; safety_rating_ncap := Some 5;
  reliability_score := Some 3.5; autopilot_available := Some true;
  ota_updates := Some true; heat_pump := Some true;
  v2l_capable := Some false; v2h_capable := Some false;
  made_in_north_america := Some true
|}.

Record TCOResult := {
  vehicle_name : string;
  purchase_price : Q;
  incentives_total : Q;
  net_purchase_price : Q;
  annual_fuel_cost : Q;
  annual_maintenance_cost : Q;
  annual_insurance_cost : Q;
  annual_registration_cost : Q;
  total_fuel_cost : Q;
  total_maintenance_cost : Q;
  total_insurance_cost : Q;
  total_registration_cost : Q;
  depreciation : Q;
  total_cost_of_ownership : Q;
  cost_per_km : Q;
  cost_per_year : Q;
  savings_vs_avg_ice : Q
}.

(** ** Incentive calculator *)

(** The amounts of [get_incentives_data], by region and by powertrain key.
    The third entry of each row, its display label ["name"], is read by no
    function of the core and is left out. *)
Definition get_incentives_data : gmap string (gmap string Q) :=
  list_to_map [
    ("usa_federal", {[ "ev" := 7500; "phev" := 3750 ]});
    ("usa_california", {[ "ev" := 9500; "phev" := 5750 ]});
    ("usa_colorado", {[ "ev" := 12500; "phev" := 6250 ]});
    ("usa_new_jersey", {[ "ev" := 11500; "phev" := 3750 ]});
    ("usa_new_york", {[ "ev" := 10000; "phev" := 4250 ]});
    ("usa_texas", {[ "ev" := 10000; "phev" := 6250 ]});
    ("canada_federal", {[ "ev" := 5000; "phev" := 2500 ]});
    ("canada_quebec", {[ "ev" := 12000; "phev" := 7500 ]});
    ("canada_bc", {[ "ev" := 9000; "phev" := 4500 ]});
    ("canada_ontario", {[ "ev" := 5000; "phev" := 2500 ]});
    ("uk", {[ "ev" := 1500; "phev" := 0 ]});
    ("germany", {[ "ev" := 4500; "phev" := 0 ]});
    ("france", {[ "ev" := 5000; "phev" := 0 ]});
    ("netherlands", {[ "ev" := 2950; "phev" := 0 ]});
    ("norway", {[ "ev" := 0; "phev" := 0 ]});
    ("australia", {[ "ev" := 3000; "phev" := 0 ]})
  ].

Definition calculate_incentive (vehicle_data : Vehicle) (region : string) : Q :=
  let incentives := get_incentives_data in
  let region_data := get (incentives !! region) {[ "ev" := 0; "phev" := 0 ]} in
  let powertrain := get (powertrain vehicle_data) "EV" in
  let price := get (base_price vehicle_data) 0 in
  let amount :=
    get (region_data !! (if String.eqb powertrain "EV" then "ev" else "phev")) 0 in
  (* Check eligibility based on price caps *)
  if String.prefix "usa" region then
    let vehicle_type := get (vehicle_type vehicle_data) "sedan" in
    (* Check manufacturing requirements for US federal *)
    let manufacturing :=
      if negb (get (made_in_north_america vehicle_data) false)
      then amount * 0.5
      else amount in
    if bool_decide (vehicle_type ∈ ["sedan"; "hatchback"]) then
      if price >? 55000 then 0 else manufacturing
    else
      if price >? 80000 then 0 else manufacturing
  else amount.

(** ** TCO calculator *)

(** Insurance - region specific *)
Definition region_insurance_map : gmap string Q :=
  list_to_map [
    ("usa_federal", 1800);
    ("usa_california", 2000);
    ("usa_colorado", 1700);
    ("usa_new_jersey", 2100);
    ("usa_new_york", 2200);
    ("usa_texas", 1600);
    ("canada_federal", 1400);
    ("canada_quebec", 1200);
    ("canada_bc", 1300);
    ("canada_ontario", 1350);
    ("uk", 900);
    ("germany", 800);
    ("france", 850);
    ("netherlands", 950);
    ("norway", 1000);
    ("australia", 1100);
    ("portugal", 700)
  ].

Definition calculate_tco (vehicle_data : Vehicle) (preferences : UserPreferences)
  : result TCOResult :=
  (* Get incentive *)
  let incentive :=
    calculate_incentive vehicle_data (Region_value (region preferences)) in
  let purchase_price := get (base_price vehicle_data) 0 + 1500 in
  let net_purchase_price := purchase_price - incentive in
  (* Annual fuel cost *)
  let annual_km := annual_km preferences in
  let powertrain := get (powertrain vehicle_data) "EV" in
  annual_fuel_cost ←
    (if String.eqb powertrain "EV" then
       let kwh_per_100km := get (kwh_per_100km vehicle_data) 18 in
       kwh_per_km ← truediv kwh_per_100km 100;
       let annual_kwh := kwh_per_km * annual_km in
       mret (annual_kwh * electricity_cost_kwh preferences)
     else
       let electric_range := get (range_km vehicle_data) 50 in
       let daily_km := daily_commute_km preferences in
       let electric_ratio :=
         if electric_range >=? daily_km then 0.70
         else if electric_range >=? daily_km * 0.5 then 0.50
         else 0.30 in
       let electric_km := annual_km * electric_ratio in
       let gas_km := annual_km * (1 - electric_ratio) in
       let kwh_per_100km := get (kwh_per_100km vehicle_data) 18 in
       let l_per_100km := get (l_per_100km vehicle_data) 6 in
       kwh_per_km ← truediv kwh_per_100km 100;
       let electric_cost :=
         kwh_per_km * electric_km * electricity_cost_kwh preferences in
       l_per_km ← truediv l_per_100km 100;
       let gas_cost := l_per_km * gas_km * gas_cost_liter preferences in
       mret (electric_cost + gas_cost));
  (* Maintenance *)
  let annual_maintenance :=
    if String.eqb powertrain "EV" then annual_km * 0.03 else annual_km * 0.05 in
  (* Insurance - region specific; a [Region] has a [value] *)
  let region_key := Region_value (region preferences) in
  let base_insurance := get (region_insurance_map !! region_key) 1500 in
  price_in_10k ← truediv (get (base_price vehicle_data) 40000) 10000;
  let price_factor := price_in_10k * 100 in
  let annual_insurance := base_insurance + price_factor in
  (* Registration *)
  let annual_registration := if String.eqb powertrain "EV" then 150 else 200 in
  (* Calculate totals *)
  let years := inject_Z (ownership_years preferences) in
  let total_fuel := annual_fuel_cost * years in
  let total_maintenance := annual_maintenance * years in
  let total_insurance := annual_insurance * years in
  let total_registration := annual_registration * years in
  (* Depreciation *)
  let resale_percent := if String.eqb powertrain "EV" then 45 else 40 in
  resale_fraction ← truediv resale_percent 100;
  let resale_value := net_purchase_price * resale_fraction in
  let depreciation := net_purchase_price - resale_value in
  (* Total TCO *)
  let total_tco :=
    net_purchase_price - resale_value
    + total_fuel + total_maintenance + total_insurance + total_registration in
  (* ICE comparison *)
  ice_l_per_km ← truediv 9.0 100;
  let ice_annual_fuel := ice_l_per_km * annual_km * gas_cost_liter preferences in
  let ice_annual_maintenance := annual_km * 0.07 in
  let ice_total :=
    40000 * 0.5
    + ice_annual_fuel * years
    + ice_annual_maintenance * years
    + 1500 * years
    + 150 * years in
  let savings := ice_total - total_tco in
  cost_per_km ←
    (if annual_km >? 0 then truediv total_tco (annual_km * years) else mret 0);
  cost_per_year ← truediv total_tco years;
  mret {|
    vehicle_name := get (name vehicle_data) "Unknown";
    purchase_price := purchase_price;
    incentives_total := incentive;
    net_purchase_price := net_purchase_price;
    annual_fuel_cost := annual_fuel_cost;
    annual_maintenance_cost := annual_maintenance;
    annual_insurance_cost := annual_insurance;
    annual_registration_cost := annual_registration;
    total_fuel_cost := total_fuel;
    total_maintenance_cost := total_maintenance;
    total_insurance_cost := total_insurance;
    total_registration_cost := total_registration;
    depreciation := depreciation;
    total_cost_of_ownership := total_tco;
    cost_per_km := cost_per_km;
    cost_per_year := cost_per_year;
    savings_vs_avg_ice := savings
  |}.

(** ** Scoring engine *)

Record ScoreResult := {
  final_score : Q;
  category_scores : gmap string Q;
  brand_bonus : Q
}.

(** The eight sub-scores, each the block of [score_vehicle] under the
    comment of its category. *)

Definition range_score (vehicle_data : Vehicle) (preferences : UserPreferences) : Q :=
  let daily_need := daily_commute_km preferences in
  let vehicle_range := get (range_km vehicle_data) 0 in
  if vehicle_range >=? daily_need * 5 then 10
  else if vehicle_range >=? daily_need * 3 then 8
  else if vehicle_range >=? daily_need * 2 then 6
  else if vehicle_range >=? daily_need * 1.5 then 4
  else 2.

Definition charging_score (vehicle_data : Vehicle) : Q :=
  let dc_kw := get (dc_charging_kw vehicle_data) 0 in
  if dc_kw >=? 250 then 10
  else if dc_kw >=? 200 then 8
  else if dc_kw >=? 150 then 6
  else if dc_kw >=? 100 then 4
  else 2.

Definition eff_score (vehicle_data : Vehicle) : Q :=
  let efficiency := get (kwh_per_100km vehicle_data) 20 in
  if efficiency <=? 14 then 10
  else if efficiency <=? 16 then 8
  else if efficiency <=? 18 then 6
  else if efficiency <=? 20 then 4
  else 2.

Definition accel_score (vehicle_data : Vehicle) : Q :=
  let zero_to_100 := get (zero_to_100_kmh vehicle_data) 8 in
  if zero_to_100 <=? 3.5 then 10
  else if zero_to_100 <=? 4.5 then 8
  else if zero_to_100 <=? 5.5 then 6
  else if zero_to_100 <=? 7.0 then 4
  else 2.

Definition safety_score (vehicle_data : Vehicle) : Q :=
  get (safety_rating_ncap vehicle_data) 5 * 2.

(** The local [reliability_score]; the name is taken by the dict key. *)
Definition reliability_subscore (vehicle_data : Vehicle) : Q :=
  get (reliability_score vehicle_data) 4 * 2.

Definition cargo_score (vehicle_data : Vehicle) (preferences : UserPreferences) : Q :=
  let cargo := get (cargo_liters vehicle_data) 400 in
  if cargo >=? inject_Z (min_cargo_liters preferences) * 2 then 10
  else if cargo >=? inject_Z (min_cargo_liters preferences) * 1.5 then 8
  else if cargo >=? inject_Z (min_cargo_liters preferences) then 6
  else 4.

Definition tech_score (vehicle_data : Vehicle) : Q :=
  let tech_score := 0 in
  let tech_score :=
    if truthy (autopilot_available vehicle_data) then tech_score + 3 else tech_score in
  let tech_score :=
    if truthy (ota_updates vehicle_data) then tech_score + 2 else tech_score in
  let tech_score :=
    if truthy (heat_pump vehicle_data) then tech_score + 2 else tech_score in
  let tech_score :=
    if truthy (v2l_capable vehicle_data) then tech_score + 2 else tech_score in
  let tech_score :=
    if truthy (v2h_capable vehicle_data) then tech_score + 1 else tech_score in
  py_min tech_score 10.

Definition score_vehicle (vehicle_data : Vehicle) (preferences : UserPreferences)
  : result ScoreResult :=
  let scores : gmap string Q := ∅ in
  let total_score := 0 in
  let max_possible := 0 in
  (* Range score *)
  let weight := inject_Z (range_priority preferences) in
  let max_possible := max_possible + weight * 10 in
  let scores := <["Range" := range_score vehicle_data preferences]> scores in
  let total_score := total_score + range_score vehicle_data preferences * weight in
  (* Charging speed *)
  let weight := inject_Z (charging_speed_priority preferences) in
  let max_possible := max_possible + weight * 10 in
  let scores := <["Charging" := charging_score vehicle_data]> scores in
  let total_score := total_score + charging_score vehicle_data * weight in
  (* Efficiency *)
  let weight := inject_Z (efficiency_priority preferences) in
  let max_possible := max_possible + weight * 10 in
  let scores := <["Efficiency" := eff_score vehicle_data]> scores in
  let total_score := total_score + eff_score vehicle_data * weight in
  (* Acceleration *)
  let weight := inject_Z (acceleration_priority preferences) in
  let max_possible := max_possible + weight * 10 in
  let scores := <["Performance" := accel_score vehicle_data]> scores in
  let total_score := total_score + accel_score vehicle_data * weight in
  (* Safety *)
  let weight := inject_Z (safety_priority preferences) in
  let max_possible := max_possible + weight * 10 in
  let scores := <["Safety" := safety_score vehicle_data]> scores in
  let total_score := total_score + safety_score vehicle_data * weight in
  (* Reliability *)
  let weight := inject_Z (reliability_priority preferences) in
  let max_possible := max_possible + weight * 10 in
  let scores := <["Reliability" := reliability_subscore vehicle_data]> scores in
  let total_score := total_score + reliability_subscore vehicle_data * weight in
  (* Cargo *)
  let weight := inject_Z (cargo_priority preferences) in
  let max_possible := max_possible + weight * 10 in
  let scores := <["Cargo" := cargo_score vehicle_data preferences]> scores in
  let total_score := total_score + cargo_score vehicle_data preferences * weight in
  (* Tech features *)
  let weight := inject_Z (tech_features_priority preferences) in
  let max_possible := max_possible + weight * 10 in
  let scores := <["Tech" := tech_score vehicle_data]> scores in
  let total_score := total_score + tech_score vehicle_data * weight in
  (* Brand preference bonus *)
  let brand_bonus :=
    if bool_decide (preferred_brands preferences ≠ [])
       && py_in (brand vehicle_data) (preferred_brands preferences)
    then 5 else 0 in
  final_score ←
    (if max_possible >? 0
     then ratio ← truediv total_score max_possible; mret (ratio * 100)
     else mret 0);
  let final_score := py_min (final_score + brand_bonus) 100 in
  mret {|
    final_score := py_round final_score 1;
    category_scores := scores;
    brand_bonus := brand_bonus
  |}.

(** ** Preference filter *)

(** One turn of the loop of [filter_vehicles]: each [continue] leaves
    [filtered] as it is, the last line appends. *)
Definition filter_vehicles_body (preferences : UserPreferences)
    (vehicle_type_values : list string) (filtered : list Vehicle) (v : Vehicle)
  : list Vehicle :=
  (* Budget *)
  if get (base_price v) 0 >? max_budget preferences * 1.1 then filtered
  else if get (base_price v) 0 <? min_budget preferences then filtered
  (* Vehicle type *)
  else if negb (py_in (vehicle_type v) vehicle_type_values) then filtered
  (* Seats *)
  else if get (seats v) 5 <? inject_Z (min_seats preferences) then filtered
  (* AWD *)
  else if needs_awd preferences && negb (get (awd v) false) then filtered
  (* Towing *)
  else if needs_towing preferences
          && (get (towing_capacity_kg v) 0 <? inject_Z (min_towing_kg preferences))
  then filtered
  (* Excluded brands *)
  else if py_in (brand v) (excluded_brands preferences) then filtered
  else (filtered ++ [v])%list.

Definition filter_vehicles (vehicles : list Vehicle) (preferences : UserPreferences)
  : list Vehicle :=
  let filtered : list Vehicle := [] in
  let vehicle_type_values : list string :=
    VehicleType_value <$> vehicle_types preferences in
  foldl (filter_vehicles_body preferences vehicle_type_values) filtered vehicles.

(** The [vehicle_types] argument that [main] builds from the strings of the
    multiselect: [[VehicleType(vt) for vt in vehicle_types] if vehicle_types
    else [VehicleType.SEDAN]]. *)
Definition main_vehicle_types (vehicle_types : list string) : result (list VehicleType) :=
  if bool_decide (vehicle_types ≠ [])
  then mapM VehicleType_of_value vehicle_types
  else mret [SEDAN].

(** ** Powertrain advisor *)

Record PowertrainRecommendation := {
  recommendation : string;
  confidence : string;
  ev_score : Z;
  phev_score : Z;
  ev_percentage : Q;
  phev_percentage : Q;
  reasons_ev : list string;
  reasons_phev : list string
}.

(** The locals [ev_score], [phev_score], [reasons_ev], [reasons_phev]. *)
Definition advisor_state : Type := Z * Z * list string * list string.

(* Daily commute *)
Definition daily_commute_rule (preferences : UserPreferences)
  : advisor_state → advisor_state :=
  λ '(ev_score, phev_score, reasons_ev, reasons_phev),
  if daily_commute_km preferences <=? 50 then
    (ev_score + 3, phev_score + 2,
     reasons_ev ++ ["Short commute easily covered by EV"], reasons_phev)%Z%list
  else if daily_commute_km preferences <=? 100 then
    (ev_score + 2, phev_score + 2, reasons_ev, reasons_phev)%Z
  else
    (ev_score, phev_score + 3, reasons_ev,
     reasons_phev ++ ["Long commute benefits from PHEV flexibility"])%Z%list.

(* Long trips *)
Definition long_trips_rule (preferences : UserPreferences)
  : advisor_state → advisor_state :=
  λ '(ev_score, phev_score, reasons_ev, reasons_phev),
  if String.eqb (long_trips_frequency preferences) "never" then
    (ev_score + 3, phev_score,
     reasons_ev ++ ["No long trips needed"], reasons_phev)%Z%list
  else if String.eqb (long_trips_frequency preferences) "rarely" then
    (ev_score + 2, phev_score + 2, reasons_ev, reasons_phev)%Z
  else if String.eqb (long_trips_frequency preferences) "monthly" then
    (ev_score, phev_score + 3, reasons_ev,
     reasons_phev ++ ["Regular long trips easier with PHEV"])%Z%list
  else
    (ev_score, phev_score + 4, reasons_ev,
     reasons_phev ++ ["Frequent long trips - PHEV recommended"])%Z%list.

(* Home charging *)
Definition home_charging_rule (preferences : UserPreferences)
  : advisor_state → advisor_state :=
  λ '(ev_score, phev_score, reasons_ev, reasons_phev),
  if home_charging_available preferences then
    if String.eqb (home_charging_type preferences) "level2" then
      (ev_score + 4, phev_score,
       reasons_ev ++ ["Level 2 home charging available"], reasons_phev)%Z%list
    else
      (ev_score + 2, phev_score + 1, reasons_ev, reasons_phev)%Z
  else
    (ev_score, phev_score + 4, reasons_ev,
     reasons_phev ++ ["No home charging - PHEV more flexible"])%Z%list.

(* Work charging *)
Definition work_charging_rule (preferences : UserPreferences)
  : advisor_state → advisor_state :=
  λ '(ev_score, phev_score, reasons_ev, reasons_phev),
  if work_charging_available preferences then
    (ev_score + 2, phev_score,
     reasons_ev ++ ["Work charging available"], reasons_phev)%Z%list
  else (ev_score, phev_score, reasons_ev, reasons_phev).

(* Zero emissions priority *)
Definition zero_emissions_rule (preferences : UserPreferences)
  : advisor_state → advisor_state :=
  λ '(ev_score, phev_score, reasons_ev, reasons_phev),
  if (zero_emissions_priority preferences >=? 4)%Z then
    (ev_score + 3, phev_score,
     reasons_ev ++ ["Strong preference for zero emissions"], reasons_phev)%Z%list
  else if (zero_emissions_priority preferences <=? 2)%Z then
    (ev_score, phev_score + 2, reasons_ev, reasons_phev)%Z
  else (ev_score, phev_score, reasons_ev, reasons_phev).

Definition recommend_powertrain (preferences : UserPreferences)
  : result PowertrainRecommendation :=
  let st : advisor_state := (0%Z, 0%Z, [], []) in
  let st := daily_commute_rule preferences st in
  let st := long_trips_rule preferences st in
  let st := home_charging_rule preferences st in
  let st := work_charging_rule preferences st in
  let st := zero_emissions_rule preferences st in
  let '(ev_score, phev_score, reasons_ev, reasons_phev) := st in
  let total := (ev_score + phev_score)%Z in
  ev_pct ←
    (if (total >? 0)%Z
     then share ← truediv (inject_Z ev_score) (inject_Z total);
          mret (py_round (share * 100) 1)
     else mret 50);
  phev_pct ←
    (if (total >? 0)%Z
     then share ← truediv (inject_Z phev_score) (inject_Z total);
          mret (py_round (share * 100) 1)
     else mret 50);
  let '(recommendation, confidence) :=
    if (ev_score >? phev_score + 3)%Z then ("EV", "High")
    else if (phev_score >? ev_score + 3)%Z then ("PHEV", "High")
    else if (ev_score >? phev_score)%Z then ("EV", "Medium")
    else if (phev_score >? ev_score)%Z then ("PHEV", "Medium")
    else ("Either", "Low") in
  mret {|
    recommendation := recommendation;
    confidence := confidence;
    ev_score := ev_score;
    phev_score := phev_score;
    ev_percentage := ev_pct;
    phev_percentage := phev_pct;
    reasons_ev := reasons_ev;
    reasons_phev := reasons_phev
  |}.

(** ** Inputs of the examples *)

(** The dataclass defaults, but for the fields given. *)
Definition preferences_with (commute : Q) (r : Region) (years : Z)
    (types : list VehicleType) (safety tech : Z) : UserPreferences := {|
  daily_commute_km := commute;
  annual_km := 20000;
  long_trips_frequency := "rarely";
  typical_long_trip_km := 400;
  home_charging_available := true;
  home_charging_type := "level2";
  work_charging_available := false;
  public_charging_reliance := "low";
  max_budget := 50000;
  min_budget := 0;
  consider_incentives := true;
  region := r;
  ownership_years := years;
  expected_resale_percent := 50;
  electricity_cost_kwh := 0.15;
  gas_cost_liter := 1.50;
  vehicle_types := types;
  min_seats := 5;
  min_cargo_liters := 300;
  needs_awd := false;
  needs_towing := false;
  min_towing_kg := 0;
  range_priority := 3;
  charging_speed_priority := 3;
  acceleration_priority := 2;
  efficiency_priority := 3;
  tech_features_priority := tech;
  safety_priority := safety;
  reliability_priority := 4;
  cargo_priority := 3;
  zero_emissions_priority := 3;
  preferred_brands := [];
  excluded_brands := []
|}.

(** A dict with at most the keys given. *)
Definition vehicle_with (ptrain vtype : option string) (price safety : option Q)
    (made : option bool) : Vehicle := {|
  name := None; brand := None; powertrain := ptrain; vehicle_type := vtype;
  base_price := price; range_km := None; dc_charging_kw := None;
  zero_to_100_kmh := None; kwh_per_100km := None; l_per_100km := None;
  cargo_liters := None; seats := None; awd := None;
  towing_capacity_kg := None; safety_rating_ncap := safety;
  reliability_score := None; autopilot_available := None;
  ota_updates := None; heat_pump := None; v2l_capable := None;
  v2h_capable := None; made_in_north_america := made
|}.

(** ** Vocabulary of the statements *)

(** The table entry for the vehicle's powertrain in the region: the local
    [region_data.get("ev" if powertrain == "EV" else "phev", 0)]. *)
Definition table_amount (vehicle_data : Vehicle) (region : string) : Q :=
  let region_data :=
    get (get_incentives_data !! region) {[ "ev" := 0; "phev" := 0 ]} in
  get (region_data !!
         (if String.eqb (get (powertrain vehicle_data) "EV") "EV"
          then "ev" else "phev")) 0.

(** The regions the price cap and the origin rule look at. *)
Definition federal_family (region : string) : Prop :=
  String.prefix "usa" region = true.

(** Sedan or hatchback; a dict without the key counts as a sedan. *)
Definition compact_body (vehicle_data : Vehicle) : Prop :=
  get (vehicle_type vehicle_data) "sedan" ∈ ["sedan"; "hatchback"].

(** The price is above the ceiling of the vehicle's body type. *)
Definition over_price_cap (vehicle_data : Vehicle) : Prop :=
  (compact_body vehicle_data ∧ 55000 < get (base_price vehicle_data) 0)
  ∨ (¬ compact_body vehicle_data ∧ 80000 < get (base_price vehicle_data) 0).

(** The hard constraints of the filter on one vehicle. *)
Definition hard_constraints (v : Vehicle) (preferences : UserPreferences) : Prop :=
  get (base_price v) 0 <= max_budget preferences * 1.1
  ∧ min_budget preferences <= get (base_price v) 0
  ∧ (∃ t, vehicle_type v = Some t
          ∧ t ∈ VehicleType_value <$> vehicle_types preferences)
  ∧ inject_Z (min_seats preferences) <= get (seats v) 5
  ∧ (needs_awd preferences = true → get (awd v) false = true)
  ∧ (needs_towing preferences = true →
     inject_Z (min_towing_kg preferences) <= get (towing_capacity_kg v) 0)
  ∧ (∀ b, brand v = Some b → b ∉ excluded_brands preferences).

(** The vehicle reaches [filtered.append(v)]: no [continue] of the loop
    body fires. *)
Definition passes (v : Vehicle) (preferences : UserPreferences) : bool :=
  negb (get (base_price v) 0 >? max_budget preferences * 1.1)
  && negb (get (base_price v) 0 <? min_budget preferences)
  && py_in (vehicle_type v) (VehicleType_value <$> vehicle_types preferences)
  && negb (get (seats v) 5 <? inject_Z (min_seats preferences))
  && negb (needs_awd preferences && negb (get (awd v) false))
  && negb (needs_towing preferences
           && (get (towing_capacity_kg v) 0 <? inject_Z (min_towing_kg preferences)))
  && negb (py_in (brand v) (excluded_brands preferences)).

(** No priority weight is negative. *)
Definition nonneg_weights (preferences : UserPreferences) : Prop :=
  (0 ≤ range_priority preferences
   ∧ 0 ≤ charging_speed_priority preferences
   ∧ 0 ≤ efficiency_priority preferences
   ∧ 0 ≤ acceleration_priority preferences
   ∧ 0 ≤ safety_priority preferences
   ∧ 0 ≤ reliability_priority preferences
   ∧ 0 ≤ cargo_priority preferences
   ∧ 0 ≤ tech_features_priority preferences)%Z.

(** Neither rating (read with its default) is negative. *)
Definition nonneg_ratings (vehicle_data : Vehicle) : Prop :=
  0 <= get (safety_rating_ncap vehicle_data) 5
  ∧ 0 <= get (reliability_score vehicle_data) 4.

(** The brand is one of a non-empty list of preferred brands. *)
Definition preferred_brand (vehicle_data : Vehicle) (preferences : UserPreferences)
  : Prop :=
  ∃ b, brand vehicle_data = Some b ∧ b ∈ preferred_brands preferences.

(** [ev_score + phev_score] of a state of the advisor. *)
Definition total_points (st : advisor_state) : Z :=
  let '(ev_score, phev_score, _, _) := st in (ev_score + phev_score)%Z.

(** What a rule adds to the two scores of the state it is given. *)
Definition points_added (rule : advisor_state → advisor_state)
    (st : advisor_state) : Z * Z :=
  let '(ev_score, phev_score, _, _) := st in
  let '(ev_score', phev_score', _, _) := rule st in
  (ev_score' - ev_score, phev_score' - phev_score)%Z.

(** The base premium of the preferences' region, 1500 for a code that the
    table does not list. *)
Definition base_premium (preferences : UserPreferences) : Q :=
  get (region_insurance_map !! Region_value (region preferences)) 1500.

(** The EV branch of the annual fuel cost of [calculate_tco], in binary64
    arithmetic as Python runs it. *)
Definition annual_fuel_cost_binary64
    (kwh_per_100km annual_km electricity_cost_kwh : float) : float :=
  let annual_kwh := ((kwh_per_100km / 100) * annual_km)%float in
  (annual_kwh * electricity_cost_kwh)%float.

(** The internal-combustion reference total of [calculate_tco], the local
    [ice_total]; [9.0 / 100] is the quotient the code computes. *)
Definition ice_total (preferences : UserPreferences) : Q :=
  let annual_km := annual_km preferences in
  let years := inject_Z (ownership_years preferences) in
  let ice_annual_fuel := 9.0 / 100 * annual_km * gas_cost_liter preferences in
  let ice_annual_maintenance := annual_km * 0.07 in
  40000 * 0.5
  + ice_annual_fuel * years
  + ice_annual_maintenance * years
  + 1500 * years
  + 150 * years.

(** The dict says ["EV"], or has no ["powertrain"] key. *)
Definition is_EV (vehicle_data : Vehicle) : bool :=
  String.eqb (get (powertrain vehicle_data) "EV") "EV".

(** The share of the annual distance a PHEV drives on electricity, the
    local [electric_ratio] of [calculate_tco]. *)
Definition electric_ratio (vehicle_data : Vehicle) (preferences : UserPreferences)
  : Q :=
  let electric_range := get (range_km vehicle_data) 50 in
  let daily_km := daily_commute_km preferences in
  if electric_range >=? daily_km then 0.70
  else if electric_range >=? daily_km * 0.5 then 0.50
  else 0.30.

(** The yearly cost of driving every kilometre on electricity, and on
    fuel, at the dict's consumption rates (18 and 6 when absent). *)
Definition all_electric_cost (vehicle_data : Vehicle) (preferences : UserPreferences)
  : Q :=
  get (kwh_per_100km vehicle_data) 18 / 100 * annual_km preferences
  * electricity_cost_kwh preferences.

Definition all_fuel_cost (vehicle_data : Vehicle) (preferences : UserPreferences)
  : Q :=
  get (l_per_100km vehicle_data) 6 / 100 * annual_km preferences
  * gas_cost_liter preferences.

(** The state of the advisor after its five rules, in the order of the
    code. *)
Definition advisor_final_state (preferences : UserPreferences) : advisor_state :=
  zero_emissions_rule preferences
    (work_charging_rule preferences
       (home_charging_rule preferences
          (long_trips_rule preferences
             (daily_commute_rule preferences (0%Z, 0%Z, [], []))))).

(** The decision of [recommend_powertrain] on the two final scores: the
    [if]/[elif] chain that sets [recommendation] and [confidence]. *)
Definition decision (ev_score phev_score : Z) : string * string :=
  if (ev_score >? phev_score + 3)%Z then ("EV", "High")
  else if (phev_score >? ev_score + 3)%Z then ("PHEV", "High")
  else if (ev_score >? phev_score)%Z then ("EV", "Medium")
  else if (phev_score >? ev_score)%Z then ("PHEV", "Medium")
  else ("Either", "Low").

(** The same preferences with another budget band. *)
Definition with_budget (lo hi : Q) (p : UserPreferences) : UserPreferences := {|
  daily_commute_km := daily_commute_km p;
  annual_km := annual_km p;
  long_trips_frequency := long_trips_frequency p;
  typical_long_trip_km := typical_long_trip_km p;
  home_charging_available := home_charging_available p;
  home_charging_type := home_charging_type p;
  work_charging_available := work_charging_available p;
  public_charging_reliance := public_charging_reliance p;
  max_budget := hi;
  min_budget := lo;
  consider_incentives := consider_incentives p;
  region := region p;
  ownership_years := ownership_years p;
  expected_resale_percent := expected_resale_percent p;
  electricity_cost_kwh := electricity_cost_kwh p;
  gas_cost_liter := gas_cost_liter p;
  vehicle_types := vehicle_types p;
  min_seats := min_seats p;
  min_cargo_liters := min_cargo_liters p;
  needs_awd := needs_awd p;
  needs_towing := needs_towing p;
  min_towing_kg := min_towing_kg p;
  range_priority := range_priority p;
  charging_speed_priority := charging_speed_priority p;
  acceleration_priority := acceleration_priority p;
  efficiency_priority := efficiency_priority p;
  tech_features_priority := tech_features_priority p;
  safety_priority := safety_priority p;
  reliability_priority := reliability_priority p;
  cargo_priority := cargo_priority p;
  zero_emissions_priority := zero_emissions_priority p;
  preferred_brands := preferred_brands p;
  excluded_brands := excluded_brands p
|}.

(** The points of the five feature flags before the cap at 10: the local
    [tech_score] just before [min(tech_score, 10)]. *)
Definition tech_points (vehicle_data : Vehicle) : Q :=
  let tech_score := 0 in
  let tech_score :=
    if truthy (autopilot_available vehicle_data) then tech_score + 3 else tech_score in
  let tech_score :=
    if truthy (ota_updates vehicle_data) then tech_score + 2 else tech_score in
  let tech_score :=
    if truthy (heat_pump vehicle_data) then tech_score + 2 else tech_score in
  let tech_score :=
    if truthy (v2l_capable vehicle_data) then tech_score + 2 else tech_score in
  if truthy (v2h_capable vehicle_data) then tech_score + 1 else tech_score.

(** The locals [total_score] and [max_possible] of [score_vehicle] after
    the eight categories, in the order the code adds them up. *)
Definition weighted_total (vehicle_data : Vehicle) (preferences : UserPreferences)
  : Q :=
  0
  + range_score vehicle_data preferences * inject_Z (range_priority preferences)
  + charging_score vehicle_data * inject_Z (charging_speed_priority preferences)
  + eff_score vehicle_data * inject_Z (efficiency_priority preferences)
  + accel_score vehicle_data * inject_Z (acceleration_priority preferences)
  + safety_score vehicle_data * inject_Z (safety_priority preferences)
  + reliability_subscore vehicle_data * inject_Z (reliability_priority preferences)
  + cargo_score vehicle_data preferences * inject_Z (cargo_priority preferences)
  + tech_score vehicle_data * inject_Z (tech_features_priority preferences).

Definition max_possible (preferences : UserPreferences) : Q :=
  0
  + inject_Z (range_priority preferences) * 10
  + inject_Z (charging_speed_priority preferences) * 10
  + inject_Z (efficiency_priority preferences) * 10
  + inject_Z (acceleration_priority preferences) * 10
  + inject_Z (safety_priority preferences) * 10
  + inject_Z (reliability_priority preferences) * 10
  + inject_Z (cargo_priority preferences) * 10
  + inject_Z (tech_features_priority preferences) * 10.

(** The sum of the eight priority weights that [score_vehicle] reads. *)
Definition weight_sum (preferences : UserPreferences) : Z :=
  (range_priority preferences + charging_speed_priority preferences
   + efficiency_priority preferences + acceleration_priority preferences
   + safety_priority preferences + reliability_priority preferences
   + cargo_priority preferences + tech_features_priority preferences)%Z.

(** The brand bonus of [score_vehicle], the local [brand_bonus]. *)
Definition bonus_of (vehicle_data : Vehicle) (preferences : UserPreferences) : Q :=
  if bool_decide (preferred_brands preferences ≠ [])
     && py_in (brand vehicle_data) (preferred_brands preferences)
  then 5 else 0.

(** The same preferences with each of the eight priority weights of the
    scoring engine multiplied by [k]. *)
Definition scale_priorities (k : Z) (p : UserPreferences) : UserPreferences := {|
  daily_commute_km := daily_commute_km p;
  annual_km := annual_km p;
  long_trips_frequency := long_trips_frequency p;
  typical_long_trip_km := typical_long_trip_km p;
  home_charging_available := home_charging_available p;
  home_charging_type := home_charging_type p;
  work_charging_available := work_charging_available p;
  public_charging_reliance := public_charging_reliance p;
  max_budget := max_budget p;
  min_budget := min_budget p;
  consider_incentives := consider_incentives p;
  region := region p;
  ownership_years := ownership_years p;
  expected_resale_percent := expected_resale_percent p;
  electricity_cost_kwh := electricity_cost_kwh p;
  gas_cost_liter := gas_cost_liter p;
  vehicle_types := vehicle_types p;
  min_seats := min_seats p;
  min_cargo_liters := min_cargo_liters p;
  needs_awd := needs_awd p;
  needs_towing := needs_towing p;
  min_towing_kg := min_towing_kg p;
  range_priority := (k * range_priority p)%Z;
  charging_speed_priority := (k * charging_speed_priority p)%Z;
  acceleration_priority := (k * acceleration_priority p)%Z;
  efficiency_priority := (k * efficiency_priority p)%Z;
  tech_features_priority := (k * tech_features_priority p)%Z;
  safety_priority := (k * safety_priority p)%Z;
  reliability_priority := (k * reliability_priority p)%Z;
  cargo_priority := (k * cargo_priority p)%Z;
  zero_emissions_priority := zero_emissions_priority p;
  preferred_brands := preferred_brands p;
  excluded_brands := excluded_brands p
|}.

(** A dict that scores 10 in every category. *)
Definition flagship : Vehicle := {|
  name := Some "Flagship"; brand := Some "Acme";
  powertrain := Some "EV"; vehicle_type := Some "sedan";
  base_price := Some 45000; range_km := Some 700;
  dc_charging_kw := Some 350; zero_to_100_kmh := Some 3.1;
  kwh_per_100km := Some 13.5; l_per_100km := None;
  cargo_liters := Some 650; seats := Some 5; awd := Some true;
  towing_capacity_kg := Some 1000; safety_rating_ncap := Some 5;
  reliability_score := Some 5; autopilot_available := Some true;
  ota_updates := Some true; heat_pump := Some true;
  v2l_capable := Some true; v2h_capable := Some true;
  made_in_north_america := Some true
|}.

(** ** The orchestration in [main] *)

(** An item of [scored_vehicles]: the dict with the keys ['vehicle'],
    ['score'] and ['tco']. *)
Record ScoredVehicle := {
  vehicle : Vehicle;
  score : ScoreResult;
  tco : TCOResult
}.

(** [l.sort(key=key, reverse=True)]: descending by key and stable, items
    of equal key staying in the order they had. The list is rebuilt from
    its end, each item going in front of the first item whose key is not
    strictly greater than its own. *)
Fixpoint insert_reverse {A} (key : A → Q) (x : A) (l : list A) : list A :=
  match l with
  | [] => [x]
  | y :: l' =>
      if key y >? key x then y :: insert_reverse key x l' else x :: y :: l'
  end.

Definition sort_reverse {A} (key : A → Q) (l : list A) : list A :=
  foldr (insert_reverse key) [] l.

(** [min(l, key=key)]: the first item of least key; [ValueError] on an
    empty list. *)
Fixpoint min_from {A} (key : A → Q) (best : A) (l : list A) : A :=
  match l with
  | [] => best
  | x :: l' => min_from key (if key x <? key best then x else best) l'
  end.

Definition py_min_key {A} (key : A → Q) (l : list A) : result A :=
  match l with
  | [] => Raise ValueError
  | x :: l' => Ok (min_from key x l')
  end.

(** One turn of the scoring loop of [main]. *)
Definition scored_item (preferences : UserPreferences) (v : Vehicle)
  : result ScoredVehicle :=
  score ← score_vehicle v preferences;
  tco ← calculate_tco v preferences;
  mret {| vehicle := v; score := score; tco := tco |}.

(** [scored_vehicles] as [main] computes it: filter, score and cost each
    survivor in turn, sort by final score, highest first. Without
    preferences (before "Recalculate") the list is empty. *)
Definition main_scored_vehicles (vehicles_data : list Vehicle)
    (preferences : option UserPreferences) : result (list ScoredVehicle) :=
  match preferences with
  | Some preferences =>
      let filtered_vehicles := filter_vehicles vehicles_data preferences in
      scored_vehicles ← mapM (scored_item preferences) filtered_vehicles;
      mret (sort_reverse (λ x, final_score (score x)) scored_vehicles)
  | None => mret []
  end.

(** The "Best Value" pick of [main] among the first ten. *)
Definition best_value (scored_vehicles : list ScoredVehicle)
  : result ScoredVehicle :=
  py_min_key (λ x, total_cost_of_ownership (tco x)) (take 10 scored_vehicles).

(** Descending order of the keys. *)
Definition key_ge {A} (key : A → Q) (a b : A) : Prop := key b <= key a.

(** ** Catalog import in [load_vehicle_database] *)

Section Sync.
(** [str.strip] and [str.lower]: whatever they do to a string, the merge
    below depends on them only through their results. *)
Context (strip lower : string → string).

(** [v.get("name", "").strip().lower()] *)
Definition normalized_name (v : Vehicle) : string :=
  lower (strip (get (name v) "")).

(** The locals [vehicles_data], [existing_names], [added], [skipped]. *)
Definition sync_state : Type := list Vehicle * gset string * nat * nat.

(** One turn of the loop over [sync_list]. *)
Definition sync_body (st : sync_state) (entry : Vehicle) : sync_state :=
  let '(vehicles_data, existing_names, added, skipped) := st in
  let name := strip (get (name entry) "") in
  if bool_decide (name = "") then st
  else if bool_decide (lower name ∈ existing_names)
  then (vehicles_data, existing_names, added, S skipped)
  else ((vehicles_data ++ [entry])%list, existing_names ∪ {[ lower name ]},
        S added, skipped).

(** [load_vehicle_database(use_sync)], as a function of the static list it
    starts from and of what opening [evdb_sync.json] gives: the list of
    entries decoded from the file, or [None] for [FileNotFoundError]. *)
Definition load_vehicle_database (vehicles_data : list Vehicle)
    (use_sync : bool) (sync_file : option (list Vehicle))
  : list Vehicle * nat * nat :=
  let added := 0%nat in
  let skipped := 0%nat in
  if use_sync then
    match sync_file with
    | Some sync_list =>
        let existing_names : gset string :=
          list_to_set (normalized_name <$> vehicles_data) in
        let '(vehicles_data, _, added, skipped) :=
          foldl sync_body (vehicles_data, existing_names, added, skipped)
                sync_list in
        (vehicles_data, added, skipped)
    | None => (vehicles_data, added, skipped)
    end
  else (vehicles_data, added, skipped).

(** The entries of the file that have a name left after stripping. *)
Definition named_entries (sync_list : list Vehicle) : list Vehicle :=
  filter (λ entry, strip (get (name entry) "") ≠ "") sync_list.

End Sync.

(** [str.lower] and [str.strip] on ASCII strings, for the examples. *)
Definition lower_ascii_char (c : ascii) : ascii :=
  let n := nat_of_ascii c in
  if Nat.leb 65 n && Nat.leb n 90 then ascii_of_nat (n + 32) else c.

Fixpoint lower_ascii (s : string) : string :=
  match s with
  | EmptyString => EmptyString
  | String c s' => String (lower_ascii_char c) (lower_ascii s')
  end.

Definition is_ascii_space (c : ascii) : bool :=
  let n := nat_of_ascii c in
  (Nat.leb 9 n && Nat.leb n 13) || (Nat.leb 28 n && Nat.leb n 32).

Fixpoint lstrip_ascii (s : string) : string :=
  match s with
  | EmptyString => EmptyString
  | String c s' => if is_ascii_space c then lstrip_ascii s' else s
  end.

Definition strip_ascii (s : string) : string :=
  String.rev (lstrip_ascii (String.rev (lstrip_ascii s))).

(** A dict with a name and nothing else, as the importer writes them. *)
Definition named (n : string) : Vehicle :=
  {| name := Some n; brand := None; powertrain := None; vehicle_type := None;
     base_price := None; range_km := None; dc_charging_kw := None;
     zero_to_100_kmh := None; kwh_per_100km := None; l_per_100km := None;
     cargo_liters := None; seats := None; awd := None;
     towing_capacity_kg := None; safety_rating_ncap := None;
     reliability_score := None; autopilot_available := None;
     ota_updates := None; heat_pump := None; v2l_capable := None;
     v2h_capable := None; made_in_north_america := None |}.

(** * Properties *)

(** ** Numbers *)

Lemma Qleb_true x y : (x <=? y) = true ↔ x <= y.
Proof. apply Qle_bool_iff. Qed.

Lemma Qleb_false x y : (x <=? y) = false ↔ y < x.
Proof.
  unfold Qleb. rewrite <- not_true_iff_false, Qle_bool_iff.
  split; [apply Qnot_le_lt | apply Qlt_not_le].
Qed.

Lemma Qgeb_true x y : (x >=? y) = true ↔ y <= x.
Proof. apply Qleb_true. Qed.

Lemma Qgeb_false x y : (x >=? y) = false ↔ x < y.
Proof. apply Qleb_false. Qed.

Lemma Qgtb_true x y : (x >? y) = true ↔ y < x.
Proof. unfold Qgtb. rewrite negb_true_iff. apply Qleb_false. Qed.

Lemma Qgtb_false x y : (x >? y) = false ↔ x <= y.
Proof. unfold Qgtb. rewrite negb_false_iff. apply Qleb_true. Qed.

Lemma Qltb_true x y : (x <? y) = true ↔ x < y.
Proof. apply Qgtb_true. Qed.

Lemma Qltb_false x y : (x <? y) = false ↔ y <= x.
Proof. apply Qgtb_false. Qed.

(** Case analysis on the comparisons of the goal, each turned into the
    order fact it decides. *)
Ltac qcompare :=
  repeat match goal with
  | |- context [?x <=? ?y] =>
      let H := fresh "Hcmp" in
      destruct (x <=? y) eqn:H;
      [apply Qleb_true in H | apply Qleb_false in H]
  | |- context [?x >=? ?y] =>
      let H := fresh "Hcmp" in
      destruct (x >=? y) eqn:H;
      [apply Qgeb_true in H | apply Qgeb_false in H]
  | |- context [?x <? ?y] =>
      let H := fresh "Hcmp" in
      destruct (x <? y) eqn:H;
      [apply Qltb_true in H | apply Qltb_false in H]
  | |- context [?x >? ?y] =>
      let H := fresh "Hcmp" in
      destruct (x >? y) eqn:H;
      [apply Qgtb_true in H | apply Qgtb_false in H]
  end.

(** A closed decidable proposition, or the negation of one, by evaluation. *)
Ltac by_bool_decide :=
  lazymatch goal with
  | |- ¬ ?P =>
      let H := fresh in
      intros H; apply (@bool_decide_pack P _) in H; vm_compute in H; exact H
  | |- ?P => refine (@bool_decide_unpack P _ _); vm_compute; exact I
  end.

Lemma truediv_Ok a b : ¬ b == 0 → truediv a b = Ok (a / b).
Proof.
  intros Hb. unfold truediv.
  destruct (Qeq_bool b 0) eqn:E; [|done].
  apply Qeq_bool_iff in E. contradiction.
Qed.

Lemma truediv_Raise a b : b == 0 → truediv a b = Raise ZeroDivisionError.
Proof. intros Hb. unfold truediv. apply Qeq_bool_iff in Hb. by rewrite Hb. Qed.

Lemma py_min_le_r a b : py_min a b <= b.
Proof. unfold py_min. qcompare; lra. Qed.

Lemma py_min_le_l a b : py_min a b <= a.
Proof. unfold py_min. qcompare; lra. Qed.

Lemma py_min_glb a b c : c <= a → c <= b → c <= py_min a b.
Proof. unfold py_min. qcompare; lra. Qed.

Lemma round_half_even_floor x :
  (Qfloor x ≤ round_half_even x ≤ Qfloor x + 1)%Z.
Proof. unfold round_half_even. repeat case_match; lia. Qed.

Lemma round_half_even_le_inject x n :
  x <= inject_Z n → (round_half_even x ≤ n)%Z.
Proof.
  intros Hx.
  destruct (Z.eq_dec (Qfloor x) n) as [Heq|Hne].
  - assert (Hxn : x == inject_Z n).
    { apply Qle_antisym; [done|]. rewrite <- Heq. apply Qfloor_le. }
    unfold round_half_even. rewrite Heq.
    assert (H : (x - inject_Z n <? 0.5) = true) by (apply Qltb_true; lra).
    by rewrite H.
  - pose proof (round_half_even_floor x) as [_ Hhi].
    assert (Qfloor x ≤ n)%Z; [|lia].
    rewrite <- (Qfloor_Z n). by apply Qfloor_resp_le.
Qed.

Lemma py_round_1_le x hi : x <= inject_Z hi → py_round x 1 <= inject_Z hi.
Proof.
  intros Hhi. unfold py_round. change (inject_Z (10 ^ 1)) with 10.
  assert (H : (round_half_even (x * 10) ≤ hi * 10)%Z).
  { apply round_half_even_le_inject. rewrite inject_Z_mult.
    change (inject_Z 10) with 10. lra. }
  rewrite Zle_Qle, inject_Z_mult in H. change (inject_Z 10) with 10 in H.
  apply Qle_shift_div_r; lra.
Qed.

Lemma py_round_1_ge x lo : inject_Z lo <= x → inject_Z lo <= py_round x 1.
Proof.
  intros Hlo. unfold py_round. change (inject_Z (10 ^ 1)) with 10.
  assert (H : (lo * 10 ≤ round_half_even (x * 10))%Z).
  { pose proof (round_half_even_floor (x * 10)) as [H _].
    assert (lo * 10 ≤ Qfloor (x * 10))%Z; [|lia].
    rewrite <- (Qfloor_Z (lo * 10)). apply Qfloor_resp_le.
    rewrite inject_Z_mult. change (inject_Z 10) with 10. lra. }
  rewrite Zle_Qle, inject_Z_mult in H. change (inject_Z 10) with 10 in H.
  apply Qle_shift_div_l; lra.
Qed.

(** ** Incentive resolver *)

Lemma incentive_rows_nonneg :
  map_Forall (λ _ row, map_Forall (λ (_ : string) q, 0 <= q) row)
             get_incentives_data.
Proof.
  unfold get_incentives_data. cbn [list_to_map foldr fst snd].
  repeat (apply map_Forall_insert_2;
          [apply map_Forall_insert_2;
           [cbv beta; lra | apply map_Forall_singleton; cbv beta; lra] |]).
  apply map_Forall_empty.
Qed.

Lemma table_amount_nonneg v region : 0 <= table_amount v region.
Proof.
  unfold table_amount, get.
  set (key := if String.eqb _ _ then _ else _). clearbody key.
  destruct (get_incentives_data !! region) as [row|] eqn:Hrow;
    cbn [default from_option id].
  - destruct (row !! key) as [q|] eqn:Hq; cbn [default from_option id]; [|lra].
    exact (incentive_rows_nonneg _ _ Hrow _ _ Hq).
  - destruct (({[ "ev" := 0; "phev" := 0 ]} : gmap string Q) !! key)
      as [q|] eqn:Hq; cbn [default from_option id]; [|lra].
    apply lookup_insert_Some in Hq as [[_ <-]|[_ Hq]]; [lra|].
    apply lookup_singleton_Some in Hq as [_ <-]. lra.
Qed.

(** The function, case by case. *)
Lemma calculate_incentive_cases v region :
  calculate_incentive v region =
    if String.prefix "usa" region then
      if bool_decide (compact_body v) then
        if get (base_price v) 0 >? 55000 then 0
        else if negb (get (made_in_north_america v) false)
             then table_amount v region * 0.5 else table_amount v region
      else
        if get (base_price v) 0 >? 80000 then 0
        else if negb (get (made_in_north_america v) false)
             then table_amount v region * 0.5 else table_amount v region
    else table_amount v region.
Proof. reflexivity. Qed.

Lemma over_price_cap_false v :
  ¬ over_price_cap v →
  (if bool_decide (compact_body v)
   then get (base_price v) 0 >? 55000
   else get (base_price v) 0 >? 80000) = false.
Proof.
  intros Hcap. unfold over_price_cap in Hcap.
  case_bool_decide; apply Qgtb_false; apply Qnot_lt_le; intros Hlt;
    apply Hcap; auto.
Qed.

(** C4. For every vehicle dict, whichever optional keys it lacks, and
    every region string, listed in the table or not, [calculate_incentive]
    yields an amount that is not negative: it is a total function, with
    nothing to raise. A dict without the ["made_in_north_america"] key is
    read as not compliant: in a region of the federal family it gets, below
    the price cap, half of the table amount, and nowhere more than the table
    amount. *)
Theorem calculate_incentive_nonneg_missing_origin_halved v region :
  0 <= calculate_incentive v region
  ∧ (made_in_north_america v = None →
     calculate_incentive v region <= table_amount v region
     ∧ (federal_family region → ¬ over_price_cap v →
        calculate_incentive v region = table_amount v region * 0.5)).
Proof.
  pose proof (table_amount_nonneg v region) as Hamount.
  split.
  - rewrite calculate_incentive_cases. repeat case_match; qcompare; lra.
  - intros Hmade. split.
    + rewrite calculate_incentive_cases. repeat case_match; qcompare; lra.
    + intros Hfed Hcap. rewrite calculate_incentive_cases.
      unfold federal_family in Hfed. rewrite Hfed, Hmade.
      apply over_price_cap_false in Hcap.
      by case_bool_decide; rewrite Hcap.
Qed.

Lemma calculate_incentive_nonneg_missing_origin_halved_witness :
  0 <= calculate_incentive
         (vehicle_with (Some "EV") (Some "suv") (Some 45000) None None)
         "usa_federal"
  ∧ calculate_incentive
      (vehicle_with (Some "EV") (Some "suv") (Some 45000) None None)
      "usa_federal" = 7500 * 0.5.
Proof.
  pose proof (calculate_incentive_nonneg_missing_origin_halved
                (vehicle_with (Some "EV") (Some "suv") (Some 45000) None None)
                "usa_federal") as [Hnonneg Hmissing].
  split; [exact Hnonneg|].
  destruct (Hmissing eq_refl) as [_ Hhalf].
  apply Hhalf.
  - reflexivity.
  - unfold over_price_cap, compact_body. cbn.
    intros [[_ H]|[_ H]]; revert H; apply Qle_not_lt; lra.
Defined.

(** C5. In a region of the federal family a sedan or hatchback priced above
    55000 gets exactly 0, and so does a vehicle of any other body type priced
    above 80000; in a region outside the family no cap applies: the amount is
    the table entry whatever the price. *)
Theorem price_cap_zero_in_federal_family_only v region :
  (federal_family region → compact_body v →
   55000 < get (base_price v) 0 → calculate_incentive v region = 0)
  ∧ (federal_family region → ¬ compact_body v →
     80000 < get (base_price v) 0 → calculate_incentive v region = 0)
  ∧ (¬ federal_family region →
     calculate_incentive v region = table_amount v region).
Proof.
  unfold federal_family. rewrite calculate_incentive_cases.
  split; [|split].
  - intros -> Hbody Hprice. rewrite bool_decide_eq_true_2 by done.
    apply Qgtb_true in Hprice. by rewrite Hprice.
  - intros -> Hbody Hprice. rewrite bool_decide_eq_false_2 by done.
    apply Qgtb_true in Hprice. by rewrite Hprice.
  - intros Hout. apply not_true_is_false in Hout. by rewrite Hout.
Qed.

Lemma price_cap_zero_in_federal_family_only_witness :
  calculate_incentive
    (vehicle_with (Some "EV") (Some "sedan") (Some 60000) None (Some true))
    "usa_california" = 0
  ∧ calculate_incentive
      (vehicle_with (Some "EV") (Some "truck") (Some 85000) None (Some true))
      "usa_texas" = 0
  ∧ calculate_incentive
      (vehicle_with (Some "EV") (Some "sedan") (Some 60000) None (Some true))
      "uk" = 1500.
Proof.
  split; [|split].
  - destruct (price_cap_zero_in_federal_family_only
                (vehicle_with (Some "EV") (Some "sedan") (Some 60000) None (Some true))
                "usa_california") as (Hcompact & Hother & Houtside).
    apply Hcompact.
    + reflexivity.
    + by_bool_decide.
    + cbn. lra.
  - destruct (price_cap_zero_in_federal_family_only
                (vehicle_with (Some "EV") (Some "truck") (Some 85000) None (Some true))
                "usa_texas") as (Hcompact & Hother & Houtside).
    apply Hother.
    + reflexivity.
    + by_bool_decide.
    + cbn. lra.
  - destruct (price_cap_zero_in_federal_family_only
                (vehicle_with (Some "EV") (Some "sedan") (Some 60000) None (Some true))
                "uk") as (Hcompact & Hother & Houtside).
    apply Houtside.
    unfold federal_family. cbn. discriminate.
Defined.

(** ** Preference filter *)

Lemma filter_vehicles_body_passes p filtered v :
  filter_vehicles_body p (VehicleType_value <$> vehicle_types p) filtered v
  = if passes v p then (filtered ++ [v])%list else filtered.
Proof.
  unfold filter_vehicles_body, passes.
  destruct (get (base_price v) 0 >? max_budget p * 1.1); [done|].
  destruct (get (base_price v) 0 <? min_budget p); [done|].
  destruct (py_in (vehicle_type v) _); [|done].
  destruct (get (seats v) 5 <? inject_Z (min_seats p)); [done|].
  destruct (needs_awd p && negb (get (awd v) false)); [done|].
  destruct (needs_towing p && _); [done|].
  by destruct (py_in (brand v) _).
Qed.

Lemma foldl_filter_vehicles_body p (vehicles acc : list Vehicle) :
  foldl (filter_vehicles_body p (VehicleType_value <$> vehicle_types p))
        acc vehicles
  = (acc ++ filter (λ v, passes v p = true) vehicles)%list.
Proof.
  revert acc. induction vehicles as [|v vehicles IH]; intros acc; cbn [foldl].
  - by rewrite app_nil_r.
  - rewrite IH, filter_vehicles_body_passes, filter_cons.
    destruct (passes v p) eqn:Hv.
    + rewrite decide_True by done. by rewrite <- app_assoc.
    + rewrite decide_False by done. done.
Qed.

(** The loop keeps the vehicles that pass, in the order of the catalog. *)
Lemma filter_vehicles_filter vehicles p :
  filter_vehicles vehicles p = filter (λ v, passes v p = true) vehicles.
Proof. apply foldl_filter_vehicles_body. Qed.

Lemma py_in_true field l :
  py_in field l = true ↔ ∃ s, field = Some s ∧ s ∈ l.
Proof.
  destruct field as [s|]; cbn [py_in].
  - rewrite bool_decide_eq_true. split.
    + intros Hin. by exists s.
    + by intros (s' & [= <-] & Hin).
  - split; [done|]. by intros (s & Hs & _).
Qed.

Lemma py_in_false field l :
  py_in field l = false ↔ ∀ s, field = Some s → s ∉ l.
Proof.
  destruct field as [s|]; cbn [py_in].
  - rewrite bool_decide_eq_false. split.
    + by intros Hnin s' [= <-].
    + intros Hall. by apply Hall.
  - split; [|done]. by intros _ s Hs.
Qed.

Lemma passes_hard_constraints v p :
  passes v p = true ↔ hard_constraints v p.
Proof.
  unfold passes, hard_constraints.
  rewrite !andb_true_iff, !negb_true_iff, !andb_false_iff, negb_false_iff.
  rewrite Qgtb_false, !Qltb_false, py_in_true, py_in_false.
  split.
  - intros ((((((Hmax & Hmin) & Htype) & Hseats) & Hawd) & Htow) & Hbrand).
    repeat split; try done.
    + intros Hneeds. destruct Hawd; congruence.
    + intros Hneeds. destruct Htow as [|Htow]; [congruence|done].
  - intros (Hmax & Hmin & Htype & Hseats & Hawd & Htow & Hbrand).
    repeat split; try done.
    + destruct (needs_awd p); [right; by apply Hawd | by left].
    + destruct (needs_towing p); [right; by apply Htow | by left].
Qed.

(** C3. The result of [filter_vehicles] is a subsequence of the catalog, in
    the catalog's order and with no entry repeated that the catalog does not
    repeat, and each of its vehicles meets every hard constraint: price at
    most [max_budget * 1.1] and at least [min_budget], body type among the
    requested ones, seats at least the minimum, AWD when required, towing
    capacity at least the minimum when towing is required, brand not
    excluded. *)
Theorem filter_vehicles_sublist_hard_constraints vehicles p :
  filter_vehicles vehicles p `sublist_of` vehicles
  ∧ (NoDup vehicles → NoDup (filter_vehicles vehicles p))
  ∧ Forall (λ v, hard_constraints v p) (filter_vehicles vehicles p).
Proof.
  rewrite filter_vehicles_filter.
  split; [apply sublist_filter|split].
  - intros Hnodup. by apply NoDup_filter.
  - apply Forall_forall. intros v Hv.
    apply list_elem_of_filter in Hv as [Hv _]. by apply passes_hard_constraints.
Qed.

Lemma filter_vehicles_sublist_hard_constraints_witness :
  filter_vehicles [tesla_model_3_sr; empty_vehicle] default_preferences
    `sublist_of` [tesla_model_3_sr; empty_vehicle]
  ∧ Forall (λ v, hard_constraints v default_preferences)
           (filter_vehicles [tesla_model_3_sr; empty_vehicle] default_preferences).
Proof.
  destruct (filter_vehicles_sublist_hard_constraints
              [tesla_model_3_sr; empty_vehicle] default_preferences)
    as (Hsub & _ & Hall).
  exact (conj Hsub Hall).
Defined.

Example filter_vehicles_keeps_the_sedan :
  filter_vehicles [tesla_model_3_sr; empty_vehicle] default_preferences
  = [tesla_model_3_sr].
Proof. vm_compute. reflexivity. Qed.

(** C7, as the claim has it: with no body type requested the filter would
    let a sedan through. It does not: of a catalog holding one sedan that
    meets every other constraint it returns nothing, and returns the sedan
    once the list of types is [[SEDAN]]. *)
Lemma filter_vehicles_empty_types_keeps_nothing :
  filter_vehicles [tesla_model_3_sr]
    (preferences_with 50 USA_FEDERAL 5 [] 4 3) = []
  ∧ filter_vehicles [tesla_model_3_sr]
      (preferences_with 50 USA_FEDERAL 5 [SEDAN] 4 3) = [tesla_model_3_sr].
Proof. split; vm_compute; reflexivity. Qed.

(** C7, amended. With no body type requested [filter_vehicles] still
    returns, and returns the empty list: every vehicle fails the body-type
    rule. The fallback to the single type [SEDAN] is made by [main], which
    puts [[VehicleType.SEDAN]] in the preferences when the selection is
    empty, before the filter is called. *)
Theorem filter_vehicles_empty_types_fallback_in_main vehicles p :
  (vehicle_types p = [] → filter_vehicles vehicles p = [])
  ∧ main_vehicle_types [] = Ok [SEDAN].
Proof.
  split; [|reflexivity].
  intros Hempty. rewrite filter_vehicles_filter.
  induction vehicles as [|v vehicles IH]; [done|].
  rewrite filter_cons, IH.
  assert (Hv : passes v p = false).
  { unfold passes. rewrite Hempty. cbn [fmap list_fmap].
    assert (Htype : py_in (vehicle_type v) [] = false).
    { apply py_in_false. intros s _. apply not_elem_of_nil. }
    rewrite Htype. by rewrite !andb_false_r. }
  by rewrite decide_False by (rewrite Hv; done).
Qed.

Lemma filter_vehicles_empty_types_fallback_in_main_witness :
  filter_vehicles [tesla_model_3_sr] (preferences_with 50 USA_FEDERAL 5 [] 4 3)
  = [].
Proof.
  destruct (filter_vehicles_empty_types_fallback_in_main
              [tesla_model_3_sr] (preferences_with 50 USA_FEDERAL 5 [] 4 3))
    as [Hempty _].
  apply Hempty. reflexivity.
Defined.

(** ** TCO calculator *)

(** Every division of [calculate_tco] but the last two has a non-zero
    literal as divisor. What is left is the pair of divisions of the
    returned record, by [annual_km * years] under its guard and by [years];
    the other fields do not depend on them. *)
Lemma calculate_tco_shape v p :
  ∃ (total_tco : Q) (mk : Q → Q → TCOResult),
    calculate_tco v p =
      (cost_per_km ←
         (if annual_km p >? 0
          then truediv total_tco (annual_km p * inject_Z (ownership_years p))
          else mret 0);
       cost_per_year ← truediv total_tco (inject_Z (ownership_years p));
       mret (mk cost_per_km cost_per_year))
    ∧ (∀ a b, cost_per_km (mk a b) = a)
    ∧ (∀ a b, cost_per_year (mk a b) = b)
    ∧ (∀ a b, purchase_price (mk a b) = get (base_price v) 0 + 1500)
    ∧ (∀ a b, incentives_total (mk a b)
              = calculate_incentive v (Region_value (region p)))
    ∧ (∀ a b, annual_insurance_cost (mk a b)
              = base_premium p + get (base_price v) 40000 / 10000 * 100)
    ∧ (∀ a b, String.eqb (get (powertrain v) "EV") "EV" = true →
              annual_fuel_cost (mk a b)
              = get (kwh_per_100km v) 18 / 100 * annual_km p
                * electricity_cost_kwh p).
Proof.
  unfold calculate_tco.
  destruct (String.eqb (get (powertrain v) "EV") "EV") eqn:Hev.
  - eexists _, (λ a b, {| cost_per_km := a; cost_per_year := b |}).
    split; [reflexivity|]. repeat split; done.
  - eexists _, (λ a b, {| cost_per_km := a; cost_per_year := b |}).
    split; [reflexivity|]. repeat split; done.
Qed.

Lemma inject_Z_eq_0 z : inject_Z z == 0 ↔ z = 0%Z.
Proof. unfold Qeq. cbn. lia. Qed.

(** With a horizon other than zero years [calculate_tco] returns, and
    these fields of its record are as follows. *)
Lemma calculate_tco_Ok v p :
  ownership_years p ≠ 0%Z →
  ∃ r, calculate_tco v p = Ok r
    ∧ purchase_price r = get (base_price v) 0 + 1500
    ∧ incentives_total r = calculate_incentive v (Region_value (region p))
    ∧ annual_insurance_cost r
      = base_premium p + get (base_price v) 40000 / 10000 * 100
    ∧ (String.eqb (get (powertrain v) "EV") "EV" = true →
       annual_fuel_cost r
       = get (kwh_per_100km v) 18 / 100 * annual_km p * electricity_cost_kwh p)
    ∧ (annual_km p <= 0 → cost_per_km r = 0).
Proof.
  intros Hyears.
  destruct (calculate_tco_shape v p)
    as (total & mk & -> & Hckm & _ & Hprice & Hinc & Hins & Hfuel).
  assert (Hy : ¬ inject_Z (ownership_years p) == 0) by by rewrite inject_Z_eq_0.
  rewrite (truediv_Ok _ _ Hy).
  destruct (annual_km p >? 0) eqn:Hkm.
  - apply Qgtb_true in Hkm.
    rewrite truediv_Ok.
    2:{ intros Hprod. apply Qmult_integral in Hprod as [Hz|Hz]; [lra|done]. }
    eexists. split; [reflexivity|].
    split_and!; first [done | apply Hfuel | intros Hle; lra].
  - eexists. split; [reflexivity|].
    split_and!; first [done | apply Hfuel | intros _; apply Hckm].
Qed.

(** With a horizon of zero years [calculate_tco] raises: at the division
    by [annual_km * years] when [annual_km > 0], at the division by [years]
    otherwise. *)
Lemma calculate_tco_zero_years v p :
  ownership_years p = 0%Z → calculate_tco v p = Raise ZeroDivisionError.
Proof.
  intros Hyears.
  destruct (calculate_tco_shape v p) as (total & mk & -> & _).
  rewrite Hyears.
  rewrite (truediv_Raise total (inject_Z 0)) by reflexivity.
  rewrite (truediv_Raise total (annual_km p * inject_Z 0))
    by (change (inject_Z 0) with 0; ring).
  by destruct (annual_km p >? 0).
Qed.

(** C2. What [calculate_tco] does about its divisions. The division for
    [cost_per_km] is guarded on [annual_km > 0] only and the division for
    [cost_per_year] is not guarded: the call raises [ZeroDivisionError]
    exactly when [ownership_years] is 0. For any other horizon it returns,
    and with an annual distance of 0 its [cost_per_km] is 0. *)
Theorem calculate_tco_raises_iff_zero_years v p :
  (calculate_tco v p = Raise ZeroDivisionError ↔ ownership_years p = 0%Z)
  ∧ (returns (calculate_tco v p) ↔ ownership_years p ≠ 0%Z)
  ∧ (∀ r, calculate_tco v p = Ok r → annual_km p == 0 → cost_per_km r = 0).
Proof.
  destruct (Z.eq_dec (ownership_years p) 0%Z) as [Hz|Hnz].
  - pose proof (calculate_tco_zero_years v p Hz) as Hraise.
    repeat split; try done.
    + intros [r Hr]. congruence.
    + intros r Hr. congruence.
  - destruct (calculate_tco_Ok v p Hnz) as (r & Hr & _ & _ & _ & _ & Hckm).
    repeat split; try done.
    + intros Hraise. congruence.
    + intros _. by exists r.
    + intros r' Hr' Hkm. assert (r' = r) as -> by congruence.
      apply Hckm. lra.
Qed.

Lemma calculate_tco_raises_iff_zero_years_witness :
  calculate_tco tesla_model_3_sr
    (preferences_with 50 USA_FEDERAL 0 [SEDAN; SUV] 4 3)
  = Raise ZeroDivisionError.
Proof.
  apply (calculate_tco_raises_iff_zero_years tesla_model_3_sr
           (preferences_with 50 USA_FEDERAL 0 [SEDAN; SUV] 4 3)).
  reflexivity.
Defined.

(** ** Insurance *)

(** Every member of [Region] has its premium in the table: through a
    [Region] the fallback of 1500 is never taken. *)
Lemma region_insurance_map_lists_every_region r :
  is_Some (region_insurance_map !! Region_value r).
Proof. destruct r; vm_compute; eauto. Qed.

(** C6, as the claim has it: the surcharge would be a fixed share of the
    list price [base_price + 1500]. It is not: at base prices 10000 and
    30000 the surcharges are 100 and 300 over list prices 11500 and 31500,
    and no factor fits both. *)
Lemma insurance_surcharge_not_proportional_to_list_price :
  ¬ ∃ k : Q, ∀ v p r, calculate_tco v p = Ok r →
      annual_insurance_cost r == base_premium p + k * purchase_price r.
Proof.
  intros [k Hk].
  set (v1 := vehicle_with (Some "EV") (Some "sedan") (Some 10000) None None).
  set (v2 := vehicle_with (Some "EV") (Some "sedan") (Some 30000) None None).
  destruct (calculate_tco_Ok v1 default_preferences)
    as (r1 & Hr1 & Hp1 & _ & Hi1 & _); [done|].
  destruct (calculate_tco_Ok v2 default_preferences)
    as (r2 & Hr2 & Hp2 & _ & Hi2 & _); [done|].
  pose proof (Hk _ _ _ Hr1) as H1. pose proof (Hk _ _ _ Hr2) as H2.
  rewrite Hp1, Hi1 in H1. rewrite Hp2, Hi2 in H2.
  subst v1 v2.
  cbn [vehicle_with base_price get default from_option id] in H1, H2.
  assert (E1 : 10000 / 10000 * 100 == 100) by reflexivity.
  assert (E2 : 30000 / 10000 * 100 == 300) by reflexivity.
  rewrite E1 in H1. rewrite E2 in H2.
  lra.
Qed.

(** C6, amended. The annual insurance cost is the base premium of the
    region (1500 for a code the table does not list) plus one hundredth of
    the base price, the base price being read as 40000 when the dict has
    none: the surcharge follows the base price, not the list price, which is
    the base price (read as 0 when absent) plus 1500. *)
Theorem annual_insurance_is_premium_plus_base_price_share v p :
  (ownership_years p ≠ 0%Z → returns (calculate_tco v p))
  ∧ (∀ r, calculate_tco v p = Ok r →
       annual_insurance_cost r
       = base_premium p + get (base_price v) 40000 / 10000 * 100
       ∧ purchase_price r = get (base_price v) 0 + 1500).
Proof.
  split.
  - intros Hyears.
    destruct (calculate_tco_Ok v p Hyears) as (r & Hr & _). by exists r.
  - intros r Hr.
    destruct (Z.eq_dec (ownership_years p) 0%Z) as [Hz|Hnz].
    + rewrite (calculate_tco_zero_years v p Hz) in Hr. done.
    + destruct (calculate_tco_Ok v p Hnz) as (r' & Hr' & Hp & _ & Hi & _).
      assert (r = r') as -> by congruence. done.
Qed.

Lemma annual_insurance_is_premium_plus_base_price_share_witness :
  ∃ r, calculate_tco tesla_model_3_sr default_preferences = Ok r
    ∧ annual_insurance_cost r = 1800 + 40240 / 10000 * 100
    ∧ purchase_price r = 40240 + 1500.
Proof.
  destruct (annual_insurance_is_premium_plus_base_price_share
              tesla_model_3_sr default_preferences) as [Hret Hfields].
  destruct Hret as [r Hr]; [done|].
  exists r. split; [exact Hr|]. exact (Hfields r Hr).
Defined.

(** ** The California scenario *)

(** C9. For an EV dict with base price 40240 and consumption 13.7 that
    carries the origin flag, and preferences with region [usa_california],
    20000 km a year and electricity at 0.15: the incentive is the California
    entry for EV, 9500 (the price is under either ceiling of the cap, which
    does look at this region, and nothing is halved), and the annual fuel
    cost of the returned record is (13.7/100) * 20000 * 0.15, that is 411.
    The record is returned for any horizon other than zero years. *)
Theorem california_ev_fuel_cost_411_incentive_9500 v p :
  get (powertrain v) "EV" = "EV" →
  get (base_price v) 0 == 40240 →
  get (kwh_per_100km v) 18 == 13.7 →
  made_in_north_america v = Some true →
  region p = USA_CALIFORNIA →
  annual_km p == 20000 →
  electricity_cost_kwh p == 0.15 →
  calculate_incentive v (Region_value (region p)) = 9500
  ∧ (ownership_years p ≠ 0%Z → returns (calculate_tco v p))
  ∧ (∀ r, calculate_tco v p = Ok r →
       annual_fuel_cost r == (13.7 / 100) * 20000 * 0.15
       ∧ annual_fuel_cost r == 411
       ∧ incentives_total r = 9500).
Proof.
  intros Hpt Hprice Hkwh Hmade Hregion Hkm Hcost.
  assert (Hinc : calculate_incentive v (Region_value (region p)) = 9500).
  { rewrite Hregion, calculate_incentive_cases. cbn [Region_value].
    change (String.prefix "usa" "usa_california") with true. cbv iota.
    assert (H55 : (get (base_price v) 0 >? 55000) = false)
      by (apply Qgtb_false; lra).
    assert (H80 : (get (base_price v) 0 >? 80000) = false)
      by (apply Qgtb_false; lra).
    rewrite H55, H80, Hmade. cbn [get default from_option id negb].
    unfold table_amount. rewrite Hpt.
    destruct (bool_decide (compact_body v)); vm_compute; reflexivity. }
  split; [exact Hinc|]. split.
  - intros Hyears.
    destruct (calculate_tco_Ok v p Hyears) as (r & Hr & _). by exists r.
  - intros r Hr.
    destruct (Z.eq_dec (ownership_years p) 0%Z) as [Hz|Hnz].
    { rewrite (calculate_tco_zero_years v p Hz) in Hr. done. }
    destruct (calculate_tco_Ok v p Hnz) as (r' & Hr' & _ & Hi & _ & Hfuel & _).
    assert (r = r') as -> by congruence.
    rewrite Hfuel by (rewrite Hpt; reflexivity).
    rewrite Hi, Hkwh, Hkm, Hcost.
    split_and!; [reflexivity | reflexivity | exact Hinc].
Qed.

Lemma california_ev_fuel_cost_411_incentive_9500_witness :
  calculate_incentive tesla_model_3_sr "usa_california" = 9500
  ∧ ∃ r, calculate_tco tesla_model_3_sr
           (preferences_with 50 USA_CALIFORNIA 5 [SEDAN; SUV] 4 3) = Ok r
       ∧ annual_fuel_cost r == 411
       ∧ incentives_total r = 9500.
Proof.
  destruct (california_ev_fuel_cost_411_incentive_9500 tesla_model_3_sr
              (preferences_with 50 USA_CALIFORNIA 5 [SEDAN; SUV] 4 3))
    as (Hinc & Hret & Hfields);
    [reflexivity | reflexivity | reflexivity | reflexivity | reflexivity
    | reflexivity | reflexivity |].
  split; [exact Hinc|].
  destruct Hret as [r Hr]; [done|].
  exists r. destruct (Hfields r Hr) as (_ & H411 & Hi).
  split; [exact Hr|]. split; [exact H411 | exact Hi].
Defined.

#[local] Set Warnings "-inexact-float".

(** The scenario in binary64: the three roundings leave the product one
    unit in the last place under 411, within 1e-12 of it. *)
Lemma annual_fuel_cost_binary64_scenario :
  annual_fuel_cost_binary64 13.7 20000 0.15 = 410.99999999999994%float
  ∧ PrimFloat.ltb
      (PrimFloat.abs (annual_fuel_cost_binary64 13.7 20000 0.15 - 411)%float)
      1e-12%float = true.
Proof. split; vm_compute; reflexivity. Qed.

(** ** Scoring engine *)

Lemma range_score_nonneg v p : 0 <= range_score v p.
Proof. unfold range_score. qcompare; lra. Qed.

Lemma charging_score_nonneg v : 0 <= charging_score v.
Proof. unfold charging_score. qcompare; lra. Qed.

Lemma eff_score_nonneg v : 0 <= eff_score v.
Proof. unfold eff_score. qcompare; lra. Qed.

Lemma accel_score_nonneg v : 0 <= accel_score v.
Proof. unfold accel_score. qcompare; lra. Qed.

Lemma cargo_score_nonneg v p : 0 <= cargo_score v p.
Proof. unfold cargo_score. qcompare; lra. Qed.

Lemma tech_score_nonneg v : 0 <= tech_score v.
Proof.
  unfold tech_score. apply py_min_glb; [|lra].
  repeat case_match; lra.
Qed.

Lemma inject_Z_nonneg z : (0 ≤ z)%Z → 0 <= inject_Z z.
Proof. intros Hz. rewrite Zle_Qle in Hz. exact Hz. Qed.

(** The brand bonus is 5 for a preferred brand and 0 otherwise. *)
Lemma brand_bonus_condition v p :
  bool_decide (preferred_brands p ≠ []) && py_in (brand v) (preferred_brands p)
  = true ↔ preferred_brand v p.
Proof.
  rewrite andb_true_iff, bool_decide_eq_true, py_in_true.
  unfold preferred_brand. split; [by intros [_ H]|].
  intros (b & Hb & Hin). split; [|by exists b].
  intros Hnil. rewrite Hnil in Hin. by apply not_elem_of_nil in Hin.
Qed.

(** [score_vehicle] down to its one division: the weighted total over the
    maximum, under the guard [max_possible > 0]. *)
Lemma score_vehicle_shape v p :
  ∃ (total_score max_possible bonus : Q) (scores : gmap string Q),
    score_vehicle v p =
      (final_score ←
         (if max_possible >? 0
          then ratio ← truediv total_score max_possible; mret (ratio * 100)
          else mret 0);
       mret {| final_score := py_round (py_min (final_score + bonus) 100) 1;
               category_scores := scores;
               brand_bonus := bonus |})
    ∧ bonus = (if bool_decide (preferred_brands p ≠ [])
                  && py_in (brand v) (preferred_brands p)
               then 5 else 0)
    ∧ (nonneg_weights p → nonneg_ratings v → 0 <= total_score).
Proof.
  unfold score_vehicle. eexists _, _, _, _.
  split; [reflexivity|]. split; [reflexivity|].
  intros (H1 & H2 & H3 & H4 & H5 & H6 & H7 & H8) [Hsafety Hreliability].
  apply inject_Z_nonneg in H1, H2, H3, H4, H5, H6, H7, H8.
  pose proof (Qmult_le_0_compat _ _ (range_score_nonneg v p) H1).
  pose proof (Qmult_le_0_compat _ _ (charging_score_nonneg v) H2).
  pose proof (Qmult_le_0_compat _ _ (eff_score_nonneg v) H3).
  pose proof (Qmult_le_0_compat _ _ (accel_score_nonneg v) H4).
  assert (0 <= safety_score v) as Hs by (unfold safety_score; lra).
  assert (0 <= reliability_subscore v) as Hr
    by (unfold reliability_subscore; lra).
  pose proof (Qmult_le_0_compat _ _ Hs H5).
  pose proof (Qmult_le_0_compat _ _ Hr H6).
  pose proof (Qmult_le_0_compat _ _ (cargo_score_nonneg v p) H7).
  pose proof (Qmult_le_0_compat _ _ (tech_score_nonneg v) H8).
  lra.
Qed.

(** C1, as the claim has it: the final score would never be below 0. It
    is, for a dict whose safety rating is -10 (against the default
    preferences: -0.8), and for preferences whose safety weight is -10
    (against the dict with no key: -16.9). *)
Lemma final_score_negative_for_negative_rating_or_weight :
  (∃ r, score_vehicle (vehicle_with None None None (Some (-10)) None)
          default_preferences = Ok r
      ∧ final_score r == -0.8 ∧ final_score r < 0)
  ∧ (∃ r, score_vehicle empty_vehicle
            (preferences_with 50 USA_FEDERAL 5 [SEDAN; SUV] (-10) 5) = Ok r
        ∧ final_score r == -16.9 ∧ final_score r < 0).
Proof.
  split; eexists; (split; [vm_compute; reflexivity|]);
    split; vm_compute; reflexivity.
Qed.

(** C1, amended. [score_vehicle] always returns; its final score is never
    above 100, the brand bonus included, which is 5 for a vehicle whose brand
    is in the preferred list and 0 otherwise; and the final score is at least
    0 when no priority weight is negative and neither the safety nor the
    reliability rating is. *)
Theorem final_score_at_most_100_and_nonneg_on_nonneg_inputs v p :
  ∃ r, score_vehicle v p = Ok r
    ∧ final_score r <= 100
    ∧ (nonneg_weights p → nonneg_ratings v → 0 <= final_score r)
    ∧ (preferred_brand v p → brand_bonus r = 5)
    ∧ (¬ preferred_brand v p → brand_bonus r = 0).
Proof.
  destruct (score_vehicle_shape v p)
    as (total & maxp & bonus & scores & -> & Hbonus & Htotal).
  assert (Hb0 : 0 <= bonus) by (rewrite Hbonus; case_match; lra).
  assert (Hfinal : ∀ fs,
    py_round (py_min (fs + bonus) 100) 1 <= 100
    ∧ (0 <= fs → 0 <= py_round (py_min (fs + bonus) 100) 1)).
  { intros fs. split.
    - apply (py_round_1_le _ 100). apply py_min_le_r.
    - intros Hfs. apply (py_round_1_ge _ 0).
      apply py_min_glb; change (inject_Z 0) with 0; lra. }
  assert (Hbrand :
    (preferred_brand v p → bonus = 5) ∧ (¬ preferred_brand v p → bonus = 0)).
  { rewrite Hbonus.
    destruct (_ && _) eqn:Hcond.
    - apply brand_bonus_condition in Hcond. by split.
    - split; [|done]. intros Hpref.
      apply brand_bonus_condition in Hpref. congruence. }
  destruct (maxp >? 0) eqn:Hmax.
  - apply Qgtb_true in Hmax.
    rewrite truediv_Ok by lra.
    eexists. split; [reflexivity|]. cbn [final_score brand_bonus].
    split; [apply Hfinal|]. split; [|exact Hbrand].
    intros Hw Hr. apply Hfinal.
    assert (0 <= total / maxp); [|lra].
    apply Qle_shift_div_l; [done|]. specialize (Htotal Hw Hr). lra.
  - eexists. split; [reflexivity|]. cbn [final_score brand_bonus].
    split; [apply Hfinal|]. split; [|exact Hbrand].
    intros _ _. apply Hfinal. lra.
Qed.

Lemma final_score_at_most_100_and_nonneg_on_nonneg_inputs_witness :
  ∃ r, score_vehicle tesla_model_3_sr default_preferences = Ok r
    ∧ 0 <= final_score r ∧ final_score r <= 100.
Proof.
  destruct (final_score_at_most_100_and_nonneg_on_nonneg_inputs
              tesla_model_3_sr default_preferences)
    as (r & Hr & Hle & Hge & _).
  exists r. split; [exact Hr|]. split; [|exact Hle].
  apply Hge.
  - unfold nonneg_weights. cbn. lia.
  - unfold nonneg_ratings. cbn. split; lra.
Defined.

Example score_vehicle_tesla_default :
  ∃ r, score_vehicle tesla_model_3_sr default_preferences = Ok r
    ∧ final_score r == 79.6.
Proof. eexists. split; vm_compute; reflexivity. Qed.

(** ** Powertrain advisor *)

Section Rules.
Context (p : UserPreferences).

Lemma daily_commute_rule_points st :
  (total_points st + 3 ≤ total_points (daily_commute_rule p st))%Z.
Proof.
  destruct st as [[[e ph] re] rp]. unfold daily_commute_rule.
  repeat case_match; cbn [total_points]; lia.
Qed.

Lemma long_trips_rule_points st :
  (total_points st + 3 ≤ total_points (long_trips_rule p st))%Z.
Proof.
  destruct st as [[[e ph] re] rp]. unfold long_trips_rule.
  repeat case_match; cbn [total_points]; lia.
Qed.

(** Level 2 gives EV 4; any other home charging gives EV 2 and PHEV 1;
    no home charging gives PHEV 4. *)
Lemma home_charging_rule_points_added st :
  points_added (home_charging_rule p) st =
    if home_charging_available p then
      if String.eqb (home_charging_type p) "level2" then (4, 0)%Z else (2, 1)%Z
    else (0, 4)%Z.
Proof.
  destruct st as [[[e ph] re] rp]. unfold points_added, home_charging_rule.
  destruct (home_charging_available p); [destruct (String.eqb _ _)|];
    f_equal; lia.
Qed.

Lemma home_charging_rule_points st :
  (total_points st + 3 ≤ total_points (home_charging_rule p st))%Z.
Proof.
  destruct st as [[[e ph] re] rp]. unfold home_charging_rule.
  repeat case_match; cbn [total_points]; lia.
Qed.

Lemma work_charging_rule_points st :
  (total_points st ≤ total_points (work_charging_rule p st))%Z.
Proof.
  destruct st as [[[e ph] re] rp]. unfold work_charging_rule.
  repeat case_match; cbn [total_points]; lia.
Qed.

Lemma zero_emissions_rule_points st :
  (total_points st ≤ total_points (zero_emissions_rule p st))%Z.
Proof.
  destruct st as [[[e ph] re] rp]. unfold zero_emissions_rule.
  repeat case_match; cbn [total_points]; lia.
Qed.

End Rules.

(** The state after the five rules. *)
Lemma recommend_powertrain_shape p :
  ∃ (ev phev : Z) (reasons_ev reasons_phev : list string)
    (recommendation confidence : string),
    (9 ≤ ev + phev)%Z
    ∧ recommend_powertrain p =
        (ev_pct ←
           (if (ev + phev >? 0)%Z
            then share ← truediv (inject_Z ev) (inject_Z (ev + phev));
                 mret (py_round (share * 100) 1)
            else mret 50);
         phev_pct ←
           (if (ev + phev >? 0)%Z
            then share ← truediv (inject_Z phev) (inject_Z (ev + phev));
                 mret (py_round (share * 100) 1)
            else mret 50);
         mret {| recommendation := recommendation; confidence := confidence;
                 ev_score := ev; phev_score := phev;
                 ev_percentage := ev_pct; phev_percentage := phev_pct;
                 reasons_ev := reasons_ev; reasons_phev := reasons_phev |}).
Proof.
  unfold recommend_powertrain.
  pose proof (daily_commute_rule_points p (0%Z, 0%Z, [], [])) as H1.
  revert H1. generalize (daily_commute_rule p (0%Z, 0%Z, [], [])).
  intros st1 H1. pose proof (long_trips_rule_points p st1) as H2.
  revert H2. generalize (long_trips_rule p st1).
  intros st2 H2. pose proof (home_charging_rule_points p st2) as H3.
  revert H3. generalize (home_charging_rule p st2).
  intros st3 H3. pose proof (work_charging_rule_points p st3) as H4.
  revert H4. generalize (work_charging_rule p st3).
  intros st4 H4. pose proof (zero_emissions_rule_points p st4) as H5.
  revert H5. generalize (zero_emissions_rule p st4).
  intros [[[e ph] re] rp] H5. cbn [total_points] in *.
  cbv beta iota zeta.
  match goal with
  | |- context [let '(_, _) := ?X in _] => destruct X as [rec conf]
  end.
  exists e, ph, re, rp, rec, conf. split; [lia | reflexivity].
Qed.

(** C10. For every preferences value the advisor returns, and the two
    scores add up to at least 4 (to at least 9: the commute, long-trip and
    home-charging rules award 3 points or more each). The home-charging
    rule awards EV 4 with level 2, EV 2 and PHEV 1 with any other home
    charging, PHEV 4 with none. The total being positive, the branch that
    sets the percentages to 50 is never taken: both percentages are the
    rounded shares of the actual scores. *)
Theorem scores_total_at_least_4_percentages_from_scores p :
  ∃ r, recommend_powertrain p = Ok r
    ∧ (4 ≤ ev_score r + phev_score r)%Z
    ∧ (9 ≤ ev_score r + phev_score r)%Z
    ∧ (∀ st, points_added (home_charging_rule p) st =
             if home_charging_available p then
               if String.eqb (home_charging_type p) "level2"
               then (4, 0)%Z else (2, 1)%Z
             else (0, 4)%Z)
    ∧ ev_percentage r
      = py_round (inject_Z (ev_score r)
                  / inject_Z (ev_score r + phev_score r) * 100) 1
    ∧ phev_percentage r
      = py_round (inject_Z (phev_score r)
                  / inject_Z (ev_score r + phev_score r) * 100) 1.
Proof.
  destruct (recommend_powertrain_shape p)
    as (e & ph & re & rp & rec & conf & Htotal & ->).
  assert (Hpos : (e + ph >? 0)%Z = true) by (apply Z.gtb_lt; lia).
  assert (Hnz : ¬ inject_Z (e + ph) == 0) by (rewrite inject_Z_eq_0; lia).
  rewrite Hpos, !truediv_Ok by done.
  eexists. split; [reflexivity|]. cbn [ev_score phev_score ev_percentage
                                       phev_percentage].
  split_and!; [lia | lia | apply home_charging_rule_points_added | done | done].
Qed.

(** C8. Commute of 75 km, long trips "rarely", level-2 home charging, no
    work charging, zero-emissions priority 3: the commute rule gives 2 and
    2, the long-trip rule 2 and 2, the home-charging rule 4 to EV, the other
    two rules nothing; the scores are EV 8 and PHEV 4, and 8 > 4 + 3 makes
    the recommendation "EV" with confidence "High". *)
Theorem commute_75_rarely_level2_recommends_EV_high p :
  daily_commute_km p == 75 →
  long_trips_frequency p = "rarely" →
  home_charging_available p = true →
  home_charging_type p = "level2" →
  work_charging_available p = false →
  zero_emissions_priority p = 3%Z →
  points_added (daily_commute_rule p) (0, 0, [], [])%Z = (2, 2)%Z
  ∧ points_added (long_trips_rule p) (0, 0, [], [])%Z = (2, 2)%Z
  ∧ points_added (home_charging_rule p) (0, 0, [], [])%Z = (4, 0)%Z
  ∧ points_added (work_charging_rule p) (0, 0, [], [])%Z = (0, 0)%Z
  ∧ points_added (zero_emissions_rule p) (0, 0, [], [])%Z = (0, 0)%Z
  ∧ ∃ r, recommend_powertrain p = Ok r
      ∧ ev_score r = 8%Z
      ∧ phev_score r = 4%Z
      ∧ recommendation r = "EV"
      ∧ confidence r = "High".
Proof.
  intros Hcommute Hlong Hhome Htype Hwork Hzero.
  assert (H50 : (daily_commute_km p <=? 50) = false)
    by (apply Qleb_false; lra).
  assert (H100 : (daily_commute_km p <=? 100) = true)
    by (apply Qleb_true; lra).
  unfold recommend_powertrain, points_added, daily_commute_rule,
    long_trips_rule, home_charging_rule, work_charging_rule,
    zero_emissions_rule.
  rewrite H50, H100, Hlong, Hhome, Htype, Hwork, Hzero.
  split_and!; try reflexivity.
  eexists. split; [vm_compute; reflexivity|].
  split_and!; reflexivity.
Qed.

Lemma commute_75_rarely_level2_recommends_EV_high_witness :
  ∃ r, recommend_powertrain
         (preferences_with 75 USA_FEDERAL 5 [SEDAN; SUV] 4 3) = Ok r
    ∧ ev_score r = 8%Z
    ∧ phev_score r = 4%Z
    ∧ recommendation r = "EV"
    ∧ confidence r = "High".
Proof.
  destruct (commute_75_rarely_level2_recommends_EV_high
              (preferences_with 75 USA_FEDERAL 5 [SEDAN; SUV] 4 3))
    as (_ & _ & _ & _ & _ & Hrec);
    [reflexivity | reflexivity | reflexivity | reflexivity | reflexivity
    | reflexivity |].
  exact Hrec.
Defined.

(** * Further properties of the code *)

(** ** Incentive resolver, continued *)

(** X1. A region code that the incentive table does not list gives an
    incentive of zero, for every vehicle and also for an unlisted code that
    starts with "usa". *)
Theorem calculate_incentive_unknown_region_zero v region :
  get_incentives_data !! region = None →
  calculate_incentive v region == 0.
Proof.
  intros Hnone.
  assert (Hamount : table_amount v region = 0).
  { unfold table_amount. rewrite Hnone. by destruct (String.eqb _ _). }
  rewrite calculate_incentive_cases, Hamount.
  repeat case_match; reflexivity.
Qed.

Lemma calculate_incentive_unknown_region_zero_witness :
  calculate_incentive tesla_model_3_sr "portugal" == 0
  ∧ calculate_incentive empty_vehicle "usa_alaska" == 0.
Proof.
  split.
  - apply (calculate_incentive_unknown_region_zero tesla_model_3_sr "portugal").
    vm_compute. reflexivity.
  - apply (calculate_incentive_unknown_region_zero empty_vehicle "usa_alaska").
    vm_compute. reflexivity.
Defined.

(** X2. In a region of the federal family and under the price cap, the
    origin flag decides between the whole table amount and half of it; the
    result never exceeds the table amount, in any region. *)
Theorem calculate_incentive_origin_flag v region :
  calculate_incentive v region <= table_amount v region
  ∧ (federal_family region → ¬ over_price_cap v →
     calculate_incentive v region =
       if get (made_in_north_america v) false
       then table_amount v region
       else table_amount v region * 0.5).
Proof.
  pose proof (table_amount_nonneg v region) as Hamount.
  split.
  - rewrite calculate_incentive_cases. repeat case_match; qcompare; lra.
  - intros Hfed Hcap. rewrite calculate_incentive_cases.
    unfold federal_family in Hfed. rewrite Hfed.
    apply over_price_cap_false in Hcap.
    case_bool_decide; rewrite Hcap;
      by destruct (get (made_in_north_america v) false).
Qed.

Lemma calculate_incentive_origin_flag_witness :
  calculate_incentive tesla_model_3_sr "usa_colorado" = 12500.
Proof.
  destruct (calculate_incentive_origin_flag tesla_model_3_sr "usa_colorado")
    as [_ Hflag].
  apply Hflag.
  - reflexivity.
  - unfold over_price_cap, compact_body. cbn.
    intros [[_ H]|[_ H]]; revert H; apply Qle_not_lt; lra.
Defined.

(** ** TCO calculator, continued *)

(** The record that [calculate_tco] builds, field by field, around its
    last two divisions. *)
Lemma calculate_tco_ledger v p :
  ∃ (total_tco : Q) (mk : Q → Q → TCOResult),
    calculate_tco v p =
      (cost_per_km ←
         (if annual_km p >? 0
          then truediv total_tco (annual_km p * inject_Z (ownership_years p))
          else mret 0);
       cost_per_year ← truediv total_tco (inject_Z (ownership_years p));
       mret (mk cost_per_km cost_per_year))
    ∧ ∀ a b,
        cost_per_km (mk a b) = a
        ∧ cost_per_year (mk a b) = b
        ∧ total_cost_of_ownership (mk a b) = total_tco
        ∧ net_purchase_price (mk a b)
          = purchase_price (mk a b) - incentives_total (mk a b)
        ∧ total_fuel_cost (mk a b)
          = annual_fuel_cost (mk a b) * inject_Z (ownership_years p)
        ∧ total_maintenance_cost (mk a b)
          = annual_maintenance_cost (mk a b) * inject_Z (ownership_years p)
        ∧ total_insurance_cost (mk a b)
          = annual_insurance_cost (mk a b) * inject_Z (ownership_years p)
        ∧ total_registration_cost (mk a b)
          = annual_registration_cost (mk a b) * inject_Z (ownership_years p)
        ∧ total_cost_of_ownership (mk a b)
          = depreciation (mk a b) + total_fuel_cost (mk a b)
            + total_maintenance_cost (mk a b) + total_insurance_cost (mk a b)
            + total_registration_cost (mk a b)
        ∧ savings_vs_avg_ice (mk a b) = ice_total p - total_tco
        ∧ depreciation (mk a b)
          = net_purchase_price (mk a b)
            - net_purchase_price (mk a b)
              * ((if is_EV v then 45 else 40) / 100)
        ∧ annual_registration_cost (mk a b) = (if is_EV v then 150 else 200)
        ∧ annual_maintenance_cost (mk a b)
          = (if is_EV v then annual_km p * 0.03 else annual_km p * 0.05).
Proof.
  unfold calculate_tco, is_EV.
  destruct (String.eqb (get (powertrain v) "EV") "EV") eqn:Hev.
  - eexists _, (λ a b, {| cost_per_km := a; cost_per_year := b |}).
    split; [reflexivity|]. intros a b. split_and!; reflexivity.
  - eexists _, (λ a b, {| cost_per_km := a; cost_per_year := b |}).
    split; [reflexivity|]. intros a b. split_and!; reflexivity.
Qed.

(** What holds of every record that [calculate_tco] returns. *)
Lemma calculate_tco_Ok_ledger v p r :
  calculate_tco v p = Ok r →
  ownership_years p ≠ 0%Z
  ∧ (if annual_km p >? 0
     then cost_per_km r
          = total_cost_of_ownership r
            / (annual_km p * inject_Z (ownership_years p))
     else cost_per_km r = 0)
  ∧ cost_per_year r
    = total_cost_of_ownership r / inject_Z (ownership_years p)
  ∧ net_purchase_price r = purchase_price r - incentives_total r
  ∧ total_fuel_cost r = annual_fuel_cost r * inject_Z (ownership_years p)
  ∧ total_maintenance_cost r
    = annual_maintenance_cost r * inject_Z (ownership_years p)
  ∧ total_insurance_cost r
    = annual_insurance_cost r * inject_Z (ownership_years p)
  ∧ total_registration_cost r
    = annual_registration_cost r * inject_Z (ownership_years p)
  ∧ total_cost_of_ownership r
    = depreciation r + total_fuel_cost r + total_maintenance_cost r
      + total_insurance_cost r + total_registration_cost r
  ∧ savings_vs_avg_ice r = ice_total p - total_cost_of_ownership r
  ∧ depreciation r
    = net_purchase_price r
      - net_purchase_price r * ((if is_EV v then 45 else 40) / 100)
  ∧ annual_registration_cost r = (if is_EV v then 150 else 200)
  ∧ annual_maintenance_cost r
    = (if is_EV v then annual_km p * 0.03 else annual_km p * 0.05).
Proof.
  intros Hr.
  destruct (Z.eq_dec (ownership_years p) 0%Z) as [Hz|Hnz].
  { rewrite (calculate_tco_zero_years v p Hz) in Hr. done. }
  split; [done|].
  destruct (calculate_tco_ledger v p) as (total & mk & Heq & Hmk).
  rewrite Heq in Hr. clear Heq.
  assert (Hy : ¬ inject_Z (ownership_years p) == 0) by by rewrite inject_Z_eq_0.
  rewrite (truediv_Ok _ _ Hy) in Hr.
  destruct (annual_km p >? 0) eqn:Hkm.
  - apply Qgtb_true in Hkm.
    rewrite truediv_Ok in Hr.
    2:{ intros Hprod. apply Qmult_integral in Hprod as [Hz|Hz]; [lra|done]. }
    injection Hr as <-.
    pose proof (Hmk (total / (annual_km p * inject_Z (ownership_years p)))
                    (total / inject_Z (ownership_years p))) as Hfields.
    destruct_and!. split_and!; first [assumption | congruence].
  - injection Hr as <-.
    pose proof (Hmk 0 (total / inject_Z (ownership_years p))) as Hfields.
    destruct_and!. split_and!; first [assumption | congruence].
Qed.

Lemma bind2_Ok_inv {A B C} (X : result A) (Y : result B) (mk : A → B → C) r :
  (a ← X; b ← Y; mret (mk a b)) = Ok r → ∃ a b, r = mk a b.
Proof.
  destruct X as [a|]; [|done]. destruct Y as [b|]; [|done].
  intros [= <-]. by exists a, b.
Qed.

(** The fuel cost of a dict that is not an EV. *)
Lemma calculate_tco_fuel_not_EV v p r :
  calculate_tco v p = Ok r → is_EV v = false →
  annual_fuel_cost r
  = get (kwh_per_100km v) 18 / 100 * (annual_km p * electric_ratio v p)
    * electricity_cost_kwh p
    + get (l_per_100km v) 6 / 100 * (annual_km p * (1 - electric_ratio v p))
      * gas_cost_liter p.
Proof.
  intros Hr Hev.
  assert (Hshape : ∃ total mk,
    calculate_tco v p =
      (cost_per_km ←
         (if annual_km p >? 0
          then truediv total (annual_km p * inject_Z (ownership_years p))
          else mret 0);
       cost_per_year ← truediv total (inject_Z (ownership_years p));
       mret (mk cost_per_km cost_per_year))
    ∧ ∀ a b, annual_fuel_cost (mk a b)
        = get (kwh_per_100km v) 18 / 100 * (annual_km p * electric_ratio v p)
          * electricity_cost_kwh p
          + get (l_per_100km v) 6 / 100
            * (annual_km p * (1 - electric_ratio v p)) * gas_cost_liter p).
  { unfold calculate_tco, electric_ratio. unfold is_EV in Hev. rewrite Hev.
    eexists _, (λ a b, {| cost_per_km := a; cost_per_year := b |}).
    split; [reflexivity|]. intros a b. reflexivity. }
  destruct Hshape as (total & mk & Heq & Hfuel).
  rewrite Heq in Hr.
  apply bind2_Ok_inv in Hr as (a & b & ->). apply Hfuel.
Qed.

(** X3. The ledger of a returned record adds up: the net price is the list
    price less the incentive, each total is the annual figure times the
    years, and the total cost of ownership is the depreciation plus the four
    totals. *)
Theorem calculate_tco_ledger_adds_up v p r :
  calculate_tco v p = Ok r →
  net_purchase_price r = purchase_price r - incentives_total r
  ∧ total_fuel_cost r = annual_fuel_cost r * inject_Z (ownership_years p)
  ∧ total_maintenance_cost r
    = annual_maintenance_cost r * inject_Z (ownership_years p)
  ∧ total_insurance_cost r
    = annual_insurance_cost r * inject_Z (ownership_years p)
  ∧ total_registration_cost r
    = annual_registration_cost r * inject_Z (ownership_years p)
  ∧ total_cost_of_ownership r
    = depreciation r + total_fuel_cost r + total_maintenance_cost r
      + total_insurance_cost r + total_registration_cost r.
Proof.
  intros Hr. pose proof (calculate_tco_Ok_ledger v p r Hr) as H.
  destruct_and!. split_and!; assumption.
Qed.

(** X4. The two unit costs give the total back: [cost_per_year] times the
    years is the total cost of ownership, and so is [cost_per_km] times the
    kilometres of the whole period when the annual distance is positive;
    with an annual distance of zero or less [cost_per_km] is 0. *)
Theorem unit_costs_multiply_back v p r :
  calculate_tco v p = Ok r →
  cost_per_year r * inject_Z (ownership_years p) == total_cost_of_ownership r
  ∧ (0 < annual_km p →
     cost_per_km r * (annual_km p * inject_Z (ownership_years p))
     == total_cost_of_ownership r)
  ∧ (annual_km p <= 0 → cost_per_km r = 0).
Proof.
  intros Hr.
  pose proof (calculate_tco_Ok_ledger v p r Hr) as (Hy & Hkm & Hyear & _).
  assert (Hy' : ¬ inject_Z (ownership_years p) == 0) by by rewrite inject_Z_eq_0.
  split_and!.
  - rewrite Hyear. field. exact Hy'.
  - intros Hpos. apply Qgtb_true in Hpos. rewrite Hpos in Hkm.
    apply Qgtb_true in Hpos. rewrite Hkm. field. split; [exact Hy'|lra].
  - intros Hle. apply Qgtb_false in Hle. by rewrite Hle in Hkm.
Qed.

(** X5. Depreciation is a fixed share of the net price: 55 percent for an
    EV and 60 percent for any other powertrain; a negative net price gives
    a negative depreciation. *)
Theorem depreciation_share_of_net_price v p r :
  calculate_tco v p = Ok r →
  depreciation r
  == net_purchase_price r * (if is_EV v then 0.55 else 0.60)
  ∧ (net_purchase_price r < 0 → depreciation r < 0).
Proof.
  intros Hr. pose proof (calculate_tco_Ok_ledger v p r Hr) as H.
  destruct_and!.
  assert (Hdep : depreciation r
                 == net_purchase_price r * (if is_EV v then 0.55 else 0.60)).
  { match goal with H : depreciation r = _ |- _ => rewrite H end.
    destruct (is_EV v); field. }
  split; [exact Hdep|]. intros Hneg. rewrite Hdep.
  destruct (is_EV v); lra.
Qed.

(** X6. The savings against the combustion baseline and the total cost of
    ownership add up to the baseline, which depends on the preferences
    only: of two vehicles costed for the same preferences, the one with the
    lower total cost has the higher savings, and savings are positive
    exactly under the baseline. *)
Theorem savings_mirror_total_cost v1 v2 p r1 r2 :
  calculate_tco v1 p = Ok r1 →
  calculate_tco v2 p = Ok r2 →
  savings_vs_avg_ice r1 + total_cost_of_ownership r1 == ice_total p
  ∧ (total_cost_of_ownership r1 <= total_cost_of_ownership r2
     ↔ savings_vs_avg_ice r2 <= savings_vs_avg_ice r1)
  ∧ (0 < savings_vs_avg_ice r1 ↔ total_cost_of_ownership r1 < ice_total p).
Proof.
  intros Hr1 Hr2.
  pose proof (calculate_tco_Ok_ledger v1 p r1 Hr1) as H1.
  pose proof (calculate_tco_Ok_ledger v2 p r2 Hr2) as H2.
  destruct_and!.
  repeat match goal with H : savings_vs_avg_ice _ = _ |- _ => rewrite H; clear H end.
  split_and!; [ring | split; lra | split; lra].
Qed.

(** X7. Only the exact string "EV" selects the EV figures. A dict whose
    powertrain is any other string, "PHEV" or the "BEV" that the importer
    writes, is costed as a plug-in hybrid: registration 200, maintenance
    0.05 per km, the ["phev"] column of the incentive table. *)
Theorem powertrain_other_than_EV_costed_as_PHEV v p r s :
  powertrain v = Some s → s ≠ "EV" →
  calculate_tco v p = Ok r →
  annual_registration_cost r = 200
  ∧ annual_maintenance_cost r = annual_km p * 0.05
  ∧ ∀ region,
      table_amount v region =
        get (get (get_incentives_data !! region) {[ "ev" := 0; "phev" := 0 ]}
               !! "phev") 0.
Proof.
  intros Hs Hne Hr.
  assert (Hev : is_EV v = false).
  { unfold is_EV. rewrite Hs. cbn [get default from_option id].
    by apply String.eqb_neq. }
  pose proof (calculate_tco_Ok_ledger v p r Hr) as H. destruct_and!.
  rewrite Hev in *. split_and!; try assumption.
  intros region. unfold table_amount. unfold is_EV in Hev. by rewrite Hev.
Qed.

(** X8. The yearly energy cost of a dict that is not an EV is a blend of
    the all-electric and the all-fuel cost, with 70, 50 or 30 percent
    electric as the electric range covers the daily commute, half of it,
    or less: it lies between the two. *)
Theorem phev_fuel_cost_is_a_blend v p r :
  calculate_tco v p = Ok r → is_EV v = false →
  annual_fuel_cost r
  == electric_ratio v p * all_electric_cost v p
     + (1 - electric_ratio v p) * all_fuel_cost v p
  ∧ (all_electric_cost v p <= all_fuel_cost v p →
     all_electric_cost v p <= annual_fuel_cost r
     ∧ annual_fuel_cost r <= all_fuel_cost v p)
  ∧ (all_fuel_cost v p <= all_electric_cost v p →
     all_fuel_cost v p <= annual_fuel_cost r
     ∧ annual_fuel_cost r <= all_electric_cost v p).
Proof.
  intros Hr Hev.
  rewrite (calculate_tco_fuel_not_EV v p r Hr Hev).
  assert (Hblend :
    get (kwh_per_100km v) 18 / 100 * (annual_km p * electric_ratio v p)
      * electricity_cost_kwh p
    + get (l_per_100km v) 6 / 100 * (annual_km p * (1 - electric_ratio v p))
      * gas_cost_liter p
    == electric_ratio v p * all_electric_cost v p
       + (1 - electric_ratio v p) * all_fuel_cost v p).
  { unfold all_electric_cost, all_fuel_cost. field. }
  rewrite Hblend. split; [reflexivity|].
  generalize (all_electric_cost v p) (all_fuel_cost v p). intros E G.
  unfold electric_ratio. split; intros Hle; repeat case_match; lra.
Qed.

(** For a goal [∃ r, m = Ok r ∧ _] on closed inputs: name the record
    that [m] returns, keeping the equation. *)
Ltac returned r Hr :=
  lazymatch goal with
  | |- ∃ _, ?m = Ok _ ∧ _ =>
      destruct m as [r|] eqn:Hr;
      [exists r; split; [reflexivity|]
      | exfalso; vm_compute in Hr; discriminate Hr]
  end.

Lemma calculate_tco_ledger_adds_up_witness :
  ∃ r, calculate_tco tesla_model_3_sr default_preferences = Ok r
    ∧ net_purchase_price r = purchase_price r - incentives_total r
    ∧ total_cost_of_ownership r
      = depreciation r + total_fuel_cost r + total_maintenance_cost r
        + total_insurance_cost r + total_registration_cost r.
Proof.
  returned r Hr.
  destruct (calculate_tco_ledger_adds_up _ _ r Hr)
    as (Hnet & _ & _ & _ & _ & Htotal).
  exact (conj Hnet Htotal).
Defined.

Lemma unit_costs_multiply_back_witness :
  ∃ r, calculate_tco tesla_model_3_sr default_preferences = Ok r
    ∧ cost_per_year r * 5 == total_cost_of_ownership r
    ∧ cost_per_km r * (20000 * 5) == total_cost_of_ownership r.
Proof.
  returned r Hr.
  destruct (unit_costs_multiply_back _ _ r Hr) as (Hyear & Hkm & _).
  split; [exact Hyear|]. apply Hkm. reflexivity.
Defined.

Lemma depreciation_share_of_net_price_witness :
  ∃ r, calculate_tco tesla_model_3_sr default_preferences = Ok r
    ∧ depreciation r == net_purchase_price r * 0.55.
Proof.
  returned r Hr.
  destruct (depreciation_share_of_net_price _ _ r Hr) as [Hshare _].
  exact Hshare.
Defined.

Lemma savings_mirror_total_cost_witness :
  ∃ r, calculate_tco tesla_model_3_sr default_preferences = Ok r
    ∧ savings_vs_avg_ice r + total_cost_of_ownership r
      == ice_total default_preferences.
Proof.
  returned r Hr.
  destruct (savings_mirror_total_cost _ _ _ r r Hr Hr) as [Hsum _].
  exact Hsum.
Defined.

Lemma powertrain_other_than_EV_costed_as_PHEV_witness :
  ∃ r, calculate_tco
         (vehicle_with (Some "BEV") (Some "suv") (Some 45000) None None)
         default_preferences = Ok r
    ∧ annual_registration_cost r = 200
    ∧ annual_maintenance_cost r = 20000 * 0.05.
Proof.
  returned r Hr.
  destruct (powertrain_other_than_EV_costed_as_PHEV
              (vehicle_with (Some "BEV") (Some "suv") (Some 45000) None None)
              default_preferences r "BEV")
    as (Hreg & Hmaint & _); [reflexivity | discriminate | exact Hr |].
  exact (conj Hreg Hmaint).
Defined.

Lemma phev_fuel_cost_is_a_blend_witness :
  ∃ r, calculate_tco
         (vehicle_with (Some "PHEV") (Some "suv") (Some 45000) None None)
         default_preferences = Ok r
    ∧ annual_fuel_cost r == 0.70 * 540 + (1 - 0.70) * 1800.
Proof.
  returned r Hr.
  destruct (phev_fuel_cost_is_a_blend _ _ r Hr) as [Hblend _]; [reflexivity|].
  etransitivity; [exact Hblend | reflexivity].
Defined.

(** ** Preference filter, continued *)

(** X9. The filter keeps exactly the catalog entries that meet every hard
    constraint. A dict without the ["vehicle_type"] key, such as the bare
    records of the importer, meets none of the type sets and is never
    kept. *)
Theorem filter_vehicles_keeps_exactly_the_admissible vehicles p v :
  (v ∈ filter_vehicles vehicles p ↔ v ∈ vehicles ∧ hard_constraints v p)
  ∧ (vehicle_type v = None → v ∉ filter_vehicles vehicles p).
Proof.
  assert (Hiff : v ∈ filter_vehicles vehicles p
                 ↔ v ∈ vehicles ∧ hard_constraints v p).
  { rewrite filter_vehicles_filter, list_elem_of_filter,
      passes_hard_constraints. tauto. }
  split; [exact Hiff|].
  intros Hnone Hin. apply Hiff in Hin as [_ (_ & _ & (t & Ht & _) & _)].
  congruence.
Qed.

(** X10. When the budget band is inverted beyond the tolerance, the
    minimum above 1.1 times the maximum, the filter returns the empty list
    for every catalog. *)
Theorem filter_vehicles_inverted_budget_empty vehicles p :
  max_budget p * 1.1 < min_budget p →
  filter_vehicles vehicles p = [].
Proof.
  intros Hinv. rewrite filter_vehicles_filter.
  induction vehicles as [|v vehicles IH]; [done|].
  rewrite filter_cons, IH.
  rewrite decide_False; [done|].
  rewrite passes_hard_constraints. intros (Hmax & Hmin & _). lra.
Qed.

(** X11. Filtering goes through concatenation, which is how the imported
    records join the static list, and filtering a filtered list again
    changes nothing. *)
Theorem filter_vehicles_app_idempotent vehicles1 vehicles2 p :
  filter_vehicles (vehicles1 ++ vehicles2) p
  = (filter_vehicles vehicles1 p ++ filter_vehicles vehicles2 p)%list
  ∧ filter_vehicles (filter_vehicles vehicles1 p) p
    = filter_vehicles vehicles1 p.
Proof.
  rewrite !filter_vehicles_filter. split; [apply filter_app|].
  induction vehicles1 as [|v vehicles IH]; [done|].
  rewrite filter_cons. case_decide as Hv; [|exact IH].
  rewrite filter_cons, decide_True by done. by rewrite IH.
Qed.

Lemma filter_vehicles_inverted_budget_empty_witness :
  filter_vehicles [tesla_model_3_sr; empty_vehicle]
    (with_budget 60000 50000 default_preferences) = [].
Proof.
  apply (filter_vehicles_inverted_budget_empty
           [tesla_model_3_sr; empty_vehicle]
           (with_budget 60000 50000 default_preferences)).
  cbn. lra.
Defined.

(** ** Powertrain advisor, continued *)

(** The record that [recommend_powertrain] returns, from the final state
    of the rules. *)
Lemma recommend_powertrain_Ok p :
  ∃ r, recommend_powertrain p = Ok r
    ∧ (ev_score r, phev_score r, reasons_ev r, reasons_phev r)
      = advisor_final_state p
    ∧ (recommendation r, confidence r) = decision (ev_score r) (phev_score r)
    ∧ ev_percentage r
      = py_round (inject_Z (ev_score r)
                  / inject_Z (ev_score r + phev_score r) * 100) 1
    ∧ phev_percentage r
      = py_round (inject_Z (phev_score r)
                  / inject_Z (ev_score r + phev_score r) * 100) 1.
Proof.
  pose proof (daily_commute_rule_points p (0%Z, 0%Z, [], [])) as H1.
  pose proof (long_trips_rule_points p
                (daily_commute_rule p (0%Z, 0%Z, [], []))) as H2.
  pose proof (home_charging_rule_points p
                (long_trips_rule p
                   (daily_commute_rule p (0%Z, 0%Z, [], [])))) as H3.
  pose proof (work_charging_rule_points p
                (home_charging_rule p
                   (long_trips_rule p
                      (daily_commute_rule p (0%Z, 0%Z, [], []))))) as H4.
  pose proof (zero_emissions_rule_points p
                (work_charging_rule p
                   (home_charging_rule p
                      (long_trips_rule p
                         (daily_commute_rule p (0%Z, 0%Z, [], [])))))) as H5.
  unfold recommend_powertrain, decision. cbv zeta.
  fold (advisor_final_state p) in *.
  destruct (advisor_final_state p) as [[[e ph] re] rp].
  cbn [total_points] in *.
  assert (Hpos : (e + ph >? 0)%Z = true) by (apply Z.gtb_lt; lia).
  assert (Hnz : ¬ inject_Z (e + ph) == 0) by (rewrite inject_Z_eq_0; lia).
  rewrite Hpos, !truediv_Ok by done.
  match goal with
  | |- context [let '(_, _) := ?X in _] => destruct X as [rec conf] eqn:Hd
  end.
  eexists. split; [reflexivity|].
  cbn [ev_score phev_score reasons_ev reasons_phev recommendation confidence
       ev_percentage phev_percentage].
  split_and!; done.
Qed.

Lemma decision_cases e ph :
  let '(rec, conf) := decision e ph in
  (rec = "EV" ↔ (ph < e)%Z)
  ∧ (rec = "PHEV" ↔ (e < ph)%Z)
  ∧ (rec = "Either" ↔ e = ph)
  ∧ (conf = "High" ↔ (3 < Z.abs (e - ph))%Z)
  ∧ (conf = "Medium" ↔ (0 < Z.abs (e - ph) ≤ 3)%Z)
  ∧ (conf = "Low" ↔ e = ph).
Proof.
  unfold decision.
  repeat match goal with
  | |- context [(?a >? ?b)%Z] =>
      let H := fresh in
      destruct (Z.gtb_spec a b) as [H|H]
  end; split_and!; split; intros H'; try discriminate H'; try reflexivity; lia.
Qed.

(** X12. The advisor always returns, and its verdict is read off the two
    scores alone: "EV" or "PHEV" for the strictly higher score and "Either"
    for a tie; confidence "High" when the scores differ by more than 3,
    "Medium" when they differ by 1 to 3, "Low" for a tie. *)
Theorem recommendation_follows_score_difference p :
  ∃ r, recommend_powertrain p = Ok r
    ∧ (recommendation r = "EV" ↔ (phev_score r < ev_score r)%Z)
    ∧ (recommendation r = "PHEV" ↔ (ev_score r < phev_score r)%Z)
    ∧ (recommendation r = "Either" ↔ ev_score r = phev_score r)
    ∧ (confidence r = "High" ↔ (3 < Z.abs (ev_score r - phev_score r))%Z)
    ∧ (confidence r = "Medium"
       ↔ (0 < Z.abs (ev_score r - phev_score r) ≤ 3)%Z)
    ∧ (confidence r = "Low" ↔ ev_score r = phev_score r).
Proof.
  destruct (recommend_powertrain_Ok p) as (r & Hr & _ & Hdecision & _).
  exists r. split; [exact Hr|].
  pose proof (decision_cases (ev_score r) (phev_score r)) as Hcases.
  rewrite <- Hdecision in Hcases. exact Hcases.
Qed.

Lemma advisor_final_state_bounds p :
  let '(e, ph, _, _) := advisor_final_state p in
  (0 ≤ e ≤ 15 ∧ 0 ≤ ph ≤ 13 ∧ 9 ≤ e + ph ≤ 18)%Z.
Proof.
  unfold advisor_final_state, daily_commute_rule, long_trips_rule,
    home_charging_rule, work_charging_rule, zero_emissions_rule.
  repeat case_match; simplify_eq; lia.
Qed.

(** ** Rounding *)

Lemma inject_Z_sub a b : inject_Z (a - b) = inject_Z a - inject_Z b.
Proof. unfold Z.sub. by rewrite inject_Z_plus, inject_Z_opp. Qed.

Lemma Qfloor_unique y m : inject_Z m <= y → y < inject_Z (m + 1) → Qfloor y = m.
Proof.
  intros Hlo Hhi.
  assert (m ≤ Qfloor y)%Z.
  { rewrite <- (Qfloor_Z m). by apply Qfloor_resp_le. }
  assert (Qfloor y < m + 1)%Z; [|lia].
  rewrite Zlt_Qlt. eapply Qle_lt_trans; [apply Qfloor_le | exact Hhi].
Qed.

(** [round_half_even] by the fractional part of its argument. *)
Lemma round_half_even_spec x :
  let n := Qfloor x in
  let frac := x - inject_Z n in
  0 <= frac ∧ frac < 1
  ∧ (frac < 0.5 → round_half_even x = n)
  ∧ (0.5 < frac → round_half_even x = (n + 1)%Z)
  ∧ (frac == 0.5 →
     round_half_even x = if Z.even n then n else (n + 1)%Z).
Proof.
  cbv zeta.
  pose proof (Qfloor_le x) as Hlo. pose proof (Qlt_floor x) as Hhi.
  rewrite inject_Z_plus in Hhi. change (inject_Z 1) with 1 in Hhi.
  unfold round_half_even. split_and!; [lra | lra | | |].
  - intros H. apply Qltb_true in H. by rewrite H.
  - intros H.
    assert (H1 : (x - inject_Z (Qfloor x) <? 0.5) = false)
      by (apply Qltb_false; lra).
    apply Qgtb_true in H. by rewrite H1, H.
  - intros H.
    assert (H1 : (x - inject_Z (Qfloor x) <? 0.5) = false)
      by (apply Qltb_false; lra).
    assert (H2 : (x - inject_Z (Qfloor x) >? 0.5) = false)
      by (apply Qgtb_false; lra).
    by rewrite H1, H2.
Qed.

(** Two numbers that add up to an even integer round to integers that
    add up to it too: the halves go one up and one down. *)
Lemma round_half_even_complement x y N :
  Z.even N = true → x + y == inject_Z N →
  (round_half_even x + round_half_even y = N)%Z.
Proof.
  intros Heven Hsum.
  pose proof (round_half_even_spec x) as (Hf0 & Hf1 & Hlt & Hgt & Heq).
  cbv zeta in *.
  set (n := Qfloor x) in *. set (f := x - inject_Z n) in *.
  assert (Hx : x == inject_Z n + f) by (unfold f; ring).
  destruct (Qlt_le_dec 0 f) as [Hpos|Hzero].
  - assert (Hm : Qfloor y = (N - n - 1)%Z).
    { apply Qfloor_unique.
      - rewrite !inject_Z_sub. change (inject_Z 1) with 1. lra.
      - rewrite inject_Z_plus, !inject_Z_sub. change (inject_Z 1) with 1.
        lra. }
    pose proof (round_half_even_spec y) as (_ & _ & Hlt' & Hgt' & Heq').
    cbv zeta in *. rewrite Hm in Hlt', Hgt', Heq'.
    rewrite !inject_Z_sub in Hlt', Hgt', Heq'.
    change (inject_Z 1) with 1 in Hlt', Hgt', Heq'.
    destruct (Q_dec f 0.5) as [[Hlow|Hhigh]|Hhalf].
    + rewrite (Hlt Hlow), Hgt' by lra. lia.
    + rewrite (Hgt Hhigh), Hlt' by lra. lia.
    + rewrite (Heq Hhalf), Heq' by lra.
      rewrite Z.even_sub, Z.even_sub, Heven. change (Z.even 1) with false.
      destruct (Z.even n); cbn; lia.
  - assert (Hf : f == 0) by lra.
    assert (Hm : Qfloor y = (N - n)%Z).
    { apply Qfloor_unique.
      - rewrite inject_Z_sub. lra.
      - rewrite inject_Z_plus, inject_Z_sub. change (inject_Z 1) with 1.
        lra. }
    pose proof (round_half_even_spec y) as (_ & _ & Hlt' & _).
    cbv zeta in *. rewrite Hm in Hlt'. rewrite inject_Z_sub in Hlt'.
    rewrite (Hlt ltac:(lra)), Hlt' by lra. lia.
Qed.

(** X13. The scores of the advisor are bounded, EV between 0 and 15 and
    PHEV between 0 and 13 with a total between 9 and 18, and the two
    percentages lie between 0 and 100 and add up to 100, in exact
    arithmetic. *)
Theorem advisor_scores_and_percentages_bounded p :
  ∃ r, recommend_powertrain p = Ok r
    ∧ (0 ≤ ev_score r ≤ 15)%Z
    ∧ (0 ≤ phev_score r ≤ 13)%Z
    ∧ (9 ≤ ev_score r + phev_score r ≤ 18)%Z
    ∧ 0 <= ev_percentage r ∧ ev_percentage r <= 100
    ∧ 0 <= phev_percentage r ∧ phev_percentage r <= 100
    ∧ ev_percentage r + phev_percentage r == 100.
Proof.
  destruct (recommend_powertrain_Ok p) as (r & Hr & Hstate & _ & Hev & Hphev).
  exists r. split; [exact Hr|].
  pose proof (advisor_final_state_bounds p) as Hbounds.
  rewrite <- Hstate in Hbounds. destruct Hbounds as (He & Hph & Htotal).
  split_and!; try lia.
  all: rewrite ?Hev, ?Hphev.
  all: set (e := ev_score r) in *; set (ph := phev_score r) in *.
  all: assert (Ht : 0 < inject_Z (e + ph))
         by (change 0 with (inject_Z 0); rewrite <- Zlt_Qlt; lia).
  all: assert (Hshare_e : 0 <= inject_Z e / inject_Z (e + ph) * 100
                          ∧ inject_Z e / inject_Z (e + ph) * 100 <= 100).
  all: try (split;
            [ apply Qmult_le_0_compat; [|lra];
              apply Qle_shift_div_l; [done|];
              rewrite Qmult_0_l; change 0 with (inject_Z 0);
              rewrite <- Zle_Qle; lia
            | assert (inject_Z e / inject_Z (e + ph) <= 1); [|lra];
              apply Qle_shift_div_r; [done|];
              rewrite Qmult_1_l, <- Zle_Qle; lia ]).
  all: assert (Hshare_ph : 0 <= inject_Z ph / inject_Z (e + ph) * 100
                           ∧ inject_Z ph / inject_Z (e + ph) * 100 <= 100).
  all: try (split;
            [ apply Qmult_le_0_compat; [|lra];
              apply Qle_shift_div_l; [done|];
              rewrite Qmult_0_l; change 0 with (inject_Z 0);
              rewrite <- Zle_Qle; lia
            | assert (inject_Z ph / inject_Z (e + ph) <= 1); [|lra];
              apply Qle_shift_div_r; [done|];
              rewrite Qmult_1_l, <- Zle_Qle; lia ]).
  - apply (py_round_1_ge _ 0). apply Hshare_e.
  - apply (py_round_1_le _ 100). apply Hshare_e.
  - apply (py_round_1_ge _ 0). apply Hshare_ph.
  - apply (py_round_1_le _ 100). apply Hshare_ph.
  - unfold py_round. change (inject_Z (10 ^ 1)) with 10.
    assert (Hsum :
      (round_half_even (inject_Z e / inject_Z (e + ph) * 100 * 10)
       + round_half_even (inject_Z ph / inject_Z (e + ph) * 100 * 10)
       = 1000)%Z).
    { apply round_half_even_complement; [reflexivity|].
      rewrite inject_Z_plus. rewrite inject_Z_plus in Ht.
      change (inject_Z 1000) with 1000. field. lra. }
    revert Hsum.
    generalize (round_half_even (inject_Z e / inject_Z (e + ph) * 100 * 10))
               (round_half_even (inject_Z ph / inject_Z (e + ph) * 100 * 10)).
    intros a b Hsum.
    assert (Hq : inject_Z a + inject_Z b == 1000).
    { rewrite <- inject_Z_plus, Hsum. reflexivity. }
    assert (Hdiv : inject_Z a / 10 + inject_Z b / 10
                   == (inject_Z a + inject_Z b) / 10) by field.
    rewrite Hdiv, Hq. reflexivity.
Qed.

(** ** Scoring engine, continued *)

(** [score_vehicle] with its locals named. *)
Lemma score_vehicle_unfold v p :
  score_vehicle v p =
    (final_score ←
       (if max_possible p >? 0
        then ratio ← truediv (weighted_total v p) (max_possible p);
             mret (ratio * 100)
        else mret 0);
     mret {| final_score := py_round (py_min (final_score + bonus_of v p) 100) 1;
             category_scores :=
               <["Tech" := tech_score v]>
               (<["Cargo" := cargo_score v p]>
                (<["Reliability" := reliability_subscore v]>
                 (<["Safety" := safety_score v]>
                  (<["Performance" := accel_score v]>
                   (<["Efficiency" := eff_score v]>
                    (<["Charging" := charging_score v]>
                     (<["Range" := range_score v p]> ∅)))))));
             brand_bonus := bonus_of v p |}).
Proof. reflexivity. Qed.

Lemma max_possible_weight_sum p : max_possible p == inject_Z (weight_sum p) * 10.
Proof. unfold max_possible, weight_sum. rewrite !inject_Z_plus. ring. Qed.

(** The record [score_vehicle] returns; it always returns one. *)
Lemma score_vehicle_Ok v p :
  ∃ r, score_vehicle v p = Ok r
    ∧ final_score r
      = py_round
          (py_min
             ((if max_possible p >? 0
               then weighted_total v p / max_possible p * 100 else 0)
              + bonus_of v p) 100) 1
    ∧ category_scores r =
        <["Tech" := tech_score v]>
        (<["Cargo" := cargo_score v p]>
         (<["Reliability" := reliability_subscore v]>
          (<["Safety" := safety_score v]>
           (<["Performance" := accel_score v]>
            (<["Efficiency" := eff_score v]>
             (<["Charging" := charging_score v]>
              (<["Range" := range_score v p]> ∅)))))))
    ∧ brand_bonus r = bonus_of v p.
Proof.
  rewrite score_vehicle_unfold.
  destruct (max_possible p >? 0) eqn:Hmax.
  - apply Qgtb_true in Hmax. rewrite truediv_Ok by lra.
    eexists. split; [reflexivity|]. split_and!; reflexivity.
  - eexists. split; [reflexivity|]. split_and!; reflexivity.
Qed.

Lemma range_score_bounds v p : 2 <= range_score v p ∧ range_score v p <= 10.
Proof. unfold range_score. qcompare; lra. Qed.

Lemma charging_score_bounds v : 2 <= charging_score v ∧ charging_score v <= 10.
Proof. unfold charging_score. qcompare; lra. Qed.

Lemma eff_score_bounds v : 2 <= eff_score v ∧ eff_score v <= 10.
Proof. unfold eff_score. qcompare; lra. Qed.

Lemma accel_score_bounds v : 2 <= accel_score v ∧ accel_score v <= 10.
Proof. unfold accel_score. qcompare; lra. Qed.

Lemma cargo_score_bounds v p : 4 <= cargo_score v p ∧ cargo_score v p <= 10.
Proof. unfold cargo_score. qcompare; lra. Qed.

Lemma tech_score_le_10 v : tech_score v <= 10.
Proof. unfold tech_score. apply py_min_le_r. Qed.

(** X14. The cap of the tech score never binds: the five flags are worth
    3, 2, 2, 2 and 1 points, 10 at most, so [min(tech_score, 10)] returns
    the points themselves; the score is 10 exactly when all five flags are
    set. *)
Theorem tech_score_cap_never_binds v :
  tech_score v = tech_points v
  ∧ 0 <= tech_score v ∧ tech_score v <= 10
  ∧ (tech_score v == 10 ↔
     truthy (autopilot_available v) = true ∧ truthy (ota_updates v) = true
     ∧ truthy (heat_pump v) = true ∧ truthy (v2l_capable v) = true
     ∧ truthy (v2h_capable v) = true).
Proof.
  unfold tech_score, tech_points.
  destruct (truthy (autopilot_available v)), (truthy (ota_updates v)),
    (truthy (heat_pump v)), (truthy (v2l_capable v)), (truthy (v2h_capable v));
    (split; [vm_compute; reflexivity|]);
    (split; [vm_compute; discriminate|]);
    (split; [vm_compute; discriminate|]);
    (split; [intros H; vm_compute in H; try discriminate H; by repeat split
            | intros H; destruct_and?; try discriminate;
              vm_compute; reflexivity]).
Qed.

(** X15. The mapping of category scores has exactly the eight keys of the
    engine. The six scores computed from ladders and flags are between 0
    and 10 for every input; the safety and reliability scores are twice the
    rating, so all eight are between 0 and 10 when both ratings (read as 5
    and 4 when absent) are between 0 and 5. *)
Theorem category_scores_eight_keys_in_range v p :
  ∃ r, score_vehicle v p = Ok r
    ∧ dom (category_scores r)
      = ({[ "Range"; "Charging"; "Efficiency"; "Performance";
            "Safety"; "Reliability"; "Cargo"; "Tech" ]} : gset string)
    ∧ map_Forall (λ k s, k ≠ "Safety" → k ≠ "Reliability" →
                         0 <= s ∧ s <= 10) (category_scores r)
    ∧ (0 <= get (safety_rating_ncap v) 5 ∧ get (safety_rating_ncap v) 5 <= 5 →
       0 <= get (reliability_score v) 4 ∧ get (reliability_score v) 4 <= 5 →
       map_Forall (λ _ s, 0 <= s ∧ s <= 10) (category_scores r)).
Proof.
  destruct (score_vehicle_Ok v p) as (r & Hr & _ & Hscores & _).
  exists r. split; [exact Hr|]. rewrite Hscores.
  pose proof (range_score_bounds v p). pose proof (charging_score_bounds v).
  pose proof (eff_score_bounds v). pose proof (accel_score_bounds v).
  pose proof (cargo_score_bounds v p).
  pose proof (tech_score_nonneg v). pose proof (tech_score_le_10 v).
  split_and!.
  - rewrite !dom_insert_L, dom_empty_L. set_solver.
  - repeat (apply map_Forall_insert_2; [intros ? ?; first [done | lra]|]).
    apply map_Forall_empty.
  - intros Hs Hrel.
    repeat (apply map_Forall_insert_2;
            [unfold safety_score, reliability_subscore; lra|]).
    apply map_Forall_empty.
Qed.

Lemma py_round_1_inject x n : x == inject_Z n → py_round x 1 == inject_Z n.
Proof.
  intros Hx. apply Qle_antisym.
  - apply py_round_1_le. lra.
  - apply py_round_1_ge. lra.
Qed.

Lemma bonus_of_cases v p : bonus_of v p = 5 ∨ bonus_of v p = 0.
Proof. unfold bonus_of. destruct (_ && _); auto. Qed.

(** X16. A vehicle that scores 10 in every category gets a final score of
    exactly 100 whenever the weights have a positive sum: 100 without a
    brand bonus, and still 100, not 105, with one. *)
Theorem all_categories_10_scores_100 v p :
  (0 < weight_sum p)%Z →
  range_score v p == 10 → charging_score v == 10 → eff_score v == 10 →
  accel_score v == 10 → safety_score v == 10 → reliability_subscore v == 10 →
  cargo_score v p == 10 → tech_score v == 10 →
  ∃ r, score_vehicle v p = Ok r ∧ final_score r == 100.
Proof.
  intros Hsum H1 H2 H3 H4 H5 H6 H7 H8.
  destruct (score_vehicle_Ok v p) as (r & Hr & Hfinal & _).
  exists r. split; [exact Hr|]. rewrite Hfinal.
  assert (Hmax : 0 < max_possible p).
  { rewrite max_possible_weight_sum.
    assert (0 < inject_Z (weight_sum p)); [|lra].
    change 0 with (inject_Z 0). by rewrite <- Zlt_Qlt. }
  assert (Htotal : weighted_total v p == max_possible p).
  { unfold weighted_total, max_possible.
    rewrite H1, H2, H3, H4, H5, H6, H7, H8. ring. }
  pose proof Hmax as Hguard. apply Qgtb_true in Hguard. rewrite Hguard.
  assert (Hratio : weighted_total v p / max_possible p * 100 == 100).
  { rewrite Htotal. field. lra. }
  apply (py_round_1_inject _ 100).
  change (inject_Z 100) with 100.
  unfold py_min. qcompare; [reflexivity|].
  destruct (bonus_of_cases v p) as [Hb|Hb]; rewrite Hb in *; lra.
Qed.

Lemma all_categories_10_scores_100_witness :
  ∃ r, score_vehicle flagship default_preferences = Ok r
    ∧ final_score r == 100.
Proof.
  apply (all_categories_10_scores_100 flagship default_preferences);
    vm_compute; reflexivity.
Defined.

(** X17. When the eight weights add up to zero or less, the division is
    skipped and the final score is the brand bonus alone: 0, or 5 for a
    preferred brand. *)
Theorem nonpositive_weight_sum_scores_bonus_only v p :
  (weight_sum p ≤ 0)%Z →
  ∃ r, score_vehicle v p = Ok r
    ∧ final_score r == brand_bonus r
    ∧ (preferred_brand v p → final_score r == 5)
    ∧ (¬ preferred_brand v p → final_score r == 0).
Proof.
  intros Hsum.
  destruct (score_vehicle_Ok v p) as (r & Hr & Hfinal & _ & Hbonus).
  exists r. split; [exact Hr|].
  assert (Hmax : max_possible p <= 0).
  { rewrite max_possible_weight_sum.
    assert (inject_Z (weight_sum p) <= 0); [|lra].
    change 0 with (inject_Z 0). by rewrite <- Zle_Qle. }
  apply Qgtb_false in Hmax. rewrite Hmax in Hfinal.
  assert (Hcases : (preferred_brand v p ∧ bonus_of v p = 5)
                   ∨ (¬ preferred_brand v p ∧ bonus_of v p = 0)).
  { unfold bonus_of. destruct (_ && _) eqn:Hcond.
    - left. split; [by apply brand_bonus_condition|done].
    - right. split; [|done]. intros Hpref.
      apply brand_bonus_condition in Hpref. congruence. }
  rewrite Hfinal, Hbonus.
  destruct Hcases as [[Hpref ->]|[Hnpref ->]]; split_and!;
    try (intros; reflexivity); try done.
Qed.

Lemma nonpositive_weight_sum_scores_bonus_only_witness :
  ∃ r, score_vehicle tesla_model_3_sr (scale_priorities 0 default_preferences)
       = Ok r
    ∧ final_score r == 0.
Proof.
  destruct (nonpositive_weight_sum_scores_bonus_only tesla_model_3_sr
              (scale_priorities 0 default_preferences))
    as (r & Hr & _ & _ & Hzero); [vm_compute; discriminate|].
  exists r. split; [exact Hr|]. apply Hzero.
  unfold preferred_brand. cbn. intros (b & _ & Hin).
  by apply not_elem_of_nil in Hin.
Defined.

Lemma Qleb_proper x x' y y' : x == x' → y == y' → (x <=? y) = (x' <=? y').
Proof. intros Hx Hy. unfold Qleb. by rewrite Hx, Hy. Qed.

Lemma round_half_even_proper x y : x == y → round_half_even x = round_half_even y.
Proof.
  intros Hxy. unfold round_half_even.
  rewrite (Qfloor_comp _ _ Hxy).
  assert (Hfrac : x - inject_Z (Qfloor y) == y - inject_Z (Qfloor y))
    by (rewrite Hxy; reflexivity).
  unfold Qltb, Qgtb.
  change (Qle_bool ?a ?b) with (a <=? b).
  rewrite (Qleb_proper _ _ _ _ (Qeq_refl 0.5) Hfrac).
  rewrite (Qleb_proper _ _ _ _ Hfrac (Qeq_refl 0.5)).
  reflexivity.
Qed.

Lemma py_round_proper x y n : x == y → py_round x n = py_round y n.
Proof.
  intros Hxy. unfold py_round.
  by rewrite (round_half_even_proper (x * _) (y * _)) by (rewrite Hxy; reflexivity).
Qed.

Lemma py_min_proper a a' b : a == a' → py_min a b == py_min a' b.
Proof.
  intros Ha. unfold py_min, Qltb.
  change (Qle_bool ?x ?y) with (x <=? y).
  rewrite (Qleb_proper a a' b b Ha (Qeq_refl b)).
  destruct (negb _); [reflexivity | exact Ha].
Qed.



(** ** Sorting and the orchestration in [main] *)

#[global] Instance Qeq_decision (x y : Q) : Decision (x == y) := Qeq_dec x y.

Section Sort.
Context {A : Type} (key : A → Q).

Lemma insert_reverse_Permutation x l : insert_reverse key x l ≡ₚ x :: l.
Proof.
  induction l as [|y l IH]; cbn [insert_reverse]; [done|].
  destruct (key y >? key x); [|done].
  rewrite IH. apply Permutation_swap.
Qed.

Lemma sort_reverse_Permutation l : sort_reverse key l ≡ₚ l.
Proof.
  induction l as [|x l IH]; cbn; [done|].
  fold (sort_reverse key l). by rewrite insert_reverse_Permutation, IH.
Qed.

Lemma insert_reverse_Sorted x l :
  Sorted (key_ge key) l → Sorted (key_ge key) (insert_reverse key x l).
Proof.
  induction 1 as [|y l Hsorted IH Hhd]; cbn [insert_reverse].
  - repeat constructor.
  - destruct (key y >? key x) eqn:Hcmp.
    + apply Qgtb_true in Hcmp. constructor; [exact IH|].
      destruct l as [|z l]; cbn [insert_reverse].
      * constructor. unfold key_ge. lra.
      * destruct (key z >? key x); constructor.
        -- by inversion Hhd.
        -- unfold key_ge. lra.
    + apply Qgtb_false in Hcmp. constructor; [by constructor|].
      constructor. exact Hcmp.
Qed.

Lemma sort_reverse_Sorted l : Sorted (key_ge key) (sort_reverse key l).
Proof.
  induction l as [|x l IH]; cbn; [constructor|].
  by apply insert_reverse_Sorted.
Qed.

Lemma insert_reverse_stable q x l :
  filter (λ a, key a == q) (insert_reverse key x l)
  = filter (λ a, key a == q) (x :: l).
Proof.
  induction l as [|y l IH]; cbn [insert_reverse]; [done|].
  destruct (key y >? key x) eqn:Hcmp; [|done].
  apply Qgtb_true in Hcmp.
  rewrite filter_cons, IH, !filter_cons.
  repeat case_decide; try done. lra.
Qed.

Lemma sort_reverse_stable q l :
  filter (λ a, key a == q) (sort_reverse key l) = filter (λ a, key a == q) l.
Proof.
  induction l as [|x l IH]; cbn; [done|].
  fold (sort_reverse key l).
  by rewrite insert_reverse_stable, !filter_cons, IH.
Qed.

Lemma sort_reverse_StronglySorted l :
  StronglySorted (key_ge key) (sort_reverse key l).
Proof.
  apply Sorted_StronglySorted; [|apply sort_reverse_Sorted].
  intros a b c. unfold key_ge. lra.
Qed.

End Sort.

Lemma mapM_Ok_Forall2 {A B} (f : A → result B) l ks :
  mapM f l = Ok ks ↔ Forall2 (λ x k, f x = Ok k) l ks.
Proof.
  split.
  - revert ks. induction l as [|x l IH]; intros ks; cbn.
    + intros [= <-]. constructor.
    + fold (mapM f l).
      destruct (f x) as [y|e] eqn:Hx; cbn; [|done].
      destruct (mapM f l) as [k|e] eqn:Hl; cbn; [|done].
      intros [= <-]. constructor; [exact Hx|]. by apply IH.
  - induction 1 as [|x k l ks Hx _ IH]; cbn; [done|].
    fold (mapM f l). by rewrite Hx, IH.
Qed.

Lemma mapM_returns {A B} (f : A → result B) l :
  Forall (λ x, returns (f x)) l → returns (mapM f l).
Proof.
  induction 1 as [|x l [y Hy] _ [k Hk]]; cbn.
  - by exists [].
  - fold (mapM f l). rewrite Hy, Hk. by eexists.
Qed.

Lemma scored_item_Ok p v it :
  scored_item p v = Ok it ↔
  vehicle it = v ∧ score_vehicle v p = Ok (score it)
  ∧ calculate_tco v p = Ok (tco it).
Proof.
  unfold scored_item.
  destruct (score_vehicle v p) as [s|]; cbn; [|split; [done|by intros (_&?&_)]].
  destruct (calculate_tco v p) as [t|]; cbn; [|split; [done|by intros (_&_&?)]].
  split.
  - by intros [= <-].
  - destruct it as [v' s' t']. cbn. by intros (-> & [= ->] & [= ->]).
Qed.

Lemma scored_items_vehicles p filtered items :
  Forall2 (λ v it, scored_item p v = Ok it) filtered items →
  vehicle <$> items = filtered
  ∧ Forall (λ it, score_vehicle (vehicle it) p = Ok (score it)
                  ∧ calculate_tco (vehicle it) p = Ok (tco it)) items.
Proof.
  induction 1 as [|v it filtered items Hit _ [IHv IHall]]; [by split|].
  apply scored_item_Ok in Hit as (Hv & Hs & Ht).
  split.
  - cbn. by rewrite Hv, IHv.
  - constructor; [|exact IHall]. by rewrite Hv.
Qed.

(** X19. With a horizon other than zero years the ranking of [main]
    returns. Its vehicles are those the filter keeps, each once, so all from
    the catalog and all within the hard constraints; each comes with its own
    score and cost record; the final scores descend; and vehicles of equal
    final score stay in catalog order. *)
Theorem main_scored_vehicles_ranked vehicles p :
  ownership_years p ≠ 0%Z →
  ∃ items, main_scored_vehicles vehicles (Some p) = Ok items
    ∧ vehicle <$> items ≡ₚ filter_vehicles vehicles p
    ∧ StronglySorted (key_ge (λ x, final_score (score x))) items
    ∧ Forall (λ it, vehicle it ∈ vehicles
                    ∧ hard_constraints (vehicle it) p
                    ∧ score_vehicle (vehicle it) p = Ok (score it)
                    ∧ calculate_tco (vehicle it) p = Ok (tco it)) items
    ∧ ∀ q, vehicle <$> filter (λ it, final_score (score it) == q) items
           `sublist_of` vehicles.
Proof.
  intros Hyears. unfold main_scored_vehicles. cbv zeta.
  destruct (mapM_returns (scored_item p) (filter_vehicles vehicles p))
    as [unsorted Hunsorted].
  { apply Forall_forall. intros v _. unfold returns, scored_item.
    destruct (score_vehicle_Ok v p) as (s & -> & _).
    destruct (calculate_tco_Ok v p Hyears) as (t & -> & _). by eexists. }
  rewrite Hunsorted. eexists. split; [reflexivity|].
  apply mapM_Ok_Forall2, scored_items_vehicles in Hunsorted as [Hv Hall].
  pose proof (sort_reverse_Permutation (λ x, final_score (score x)) unsorted)
    as Hperm.
  pose proof (sort_reverse_StronglySorted (λ x, final_score (score x)) unsorted)
    as Hsorted.
  pose proof (λ q, sort_reverse_stable (λ x, final_score (score x)) q unsorted)
    as Hstable.
  split_and!.
  - by rewrite Hperm, Hv.
  - exact Hsorted.
  - rewrite Hperm. apply Forall_forall. intros it Hit.
    rewrite Forall_forall in Hall. destruct (Hall it Hit) as [Hs Ht].
    assert (Hin : vehicle it ∈ filter_vehicles vehicles p).
    { rewrite <- Hv. by apply list_elem_of_fmap_2. }
    rewrite filter_vehicles_filter, list_elem_of_filter,
      passes_hard_constraints in Hin.
    destruct Hin as [Hhard Hin]. done.
  - intros q. rewrite Hstable.
    transitivity (vehicle <$> unsorted).
    + apply fmap_sublist, sublist_filter.
    + rewrite Hv, filter_vehicles_filter. apply sublist_filter.
Qed.

Lemma main_scored_vehicles_ranked_witness :
  ∃ items,
    main_scored_vehicles [tesla_model_3_sr; empty_vehicle; flagship]
      (Some default_preferences) = Ok items
    ∧ vehicle <$> items ≡ₚ
        filter_vehicles [tesla_model_3_sr; empty_vehicle; flagship]
          default_preferences.
Proof.
  destruct (main_scored_vehicles_ranked
              [tesla_model_3_sr; empty_vehicle; flagship] default_preferences)
    as (items & Hitems & Hperm & _); [discriminate|].
  exists items. exact (conj Hitems Hperm).
Defined.

Example main_scored_vehicles_flagship_first :
  ∃ items,
    main_scored_vehicles [tesla_model_3_sr; empty_vehicle; flagship]
      (Some default_preferences) = Ok items
    ∧ vehicle <$> items = [flagship; tesla_model_3_sr].
Proof. eexists. split; vm_compute; reflexivity. Qed.

(** X20. The ranking of [main] raises exactly when the horizon is zero
    years and the filter keeps at least one vehicle: then the first cost
    computation divides by zero. With nothing kept it returns the empty
    list whatever the horizon, and so it does without preferences. *)
Theorem main_scored_vehicles_raises_iff vehicles p :
  (main_scored_vehicles vehicles (Some p) = Raise ZeroDivisionError
   ↔ ownership_years p = 0%Z ∧ filter_vehicles vehicles p ≠ [])
  ∧ (filter_vehicles vehicles p = [] →
     main_scored_vehicles vehicles (Some p) = Ok [])
  ∧ main_scored_vehicles vehicles None = Ok [].
Proof.
  split_and!; [|by intros Hempty; unfold main_scored_vehicles; rewrite Hempty
              |reflexivity].
  unfold main_scored_vehicles. cbv zeta.
  destruct (filter_vehicles vehicles p) as [|v filtered] eqn:Hfiltered.
  { split; [done|]. by intros [_ ?]. }
  destruct (Z.eq_dec (ownership_years p) 0%Z) as [Hz|Hnz].
  - split; [done|]. intros _. cbn. unfold scored_item.
    destruct (score_vehicle_Ok v p) as (s & -> & _).
    by rewrite (calculate_tco_zero_years v p Hz).
  - split; [|by intros [? _]].
    destruct (mapM_returns (scored_item p) (v :: filtered)) as [items Hitems].
    { apply Forall_forall. intros v' _. unfold returns, scored_item.
      destruct (score_vehicle_Ok v' p) as (s & -> & _).
      destruct (calculate_tco_Ok v' p Hnz) as (t & -> & _). by eexists. }
    by rewrite Hitems.
Qed.

Lemma main_scored_vehicles_raises_iff_witness :
  main_scored_vehicles [tesla_model_3_sr]
    (Some (preferences_with 50 USA_FEDERAL 0 [SEDAN; SUV] 4 3))
  = Raise ZeroDivisionError
  ∧ main_scored_vehicles [empty_vehicle]
      (Some (preferences_with 50 USA_FEDERAL 0 [SEDAN; SUV] 4 3))
    = Ok [].
Proof.
  split.
  - destruct (main_scored_vehicles_raises_iff [tesla_model_3_sr]
                (preferences_with 50 USA_FEDERAL 0 [SEDAN; SUV] 4 3))
      as [[_ Hraise] _].
    apply Hraise. split; [reflexivity|]. vm_compute. discriminate.
  - destruct (main_scored_vehicles_raises_iff [empty_vehicle]
                (preferences_with 50 USA_FEDERAL 0 [SEDAN; SUV] 4 3))
      as (_ & Hempty & _).
    apply Hempty. vm_compute. reflexivity.
Defined.

(** X21. The "Best Value" pick exists as soon as the ranking is not
    empty; it is one of the first ten of the ranking, no other of the ten
    has a lower total cost of ownership, and of several with the lowest it
    is the best ranked. On an empty ranking [min] raises [ValueError]. *)
Theorem best_value_least_cost_of_top_ten (scored_vehicles : list ScoredVehicle) :
  (scored_vehicles ≠ [] →
   ∃ best pre post,
     best_value scored_vehicles = Ok best
     ∧ take 10 scored_vehicles = (pre ++ best :: post)%list
     ∧ Forall (λ x, total_cost_of_ownership (tco best)
                    < total_cost_of_ownership (tco x)) pre
     ∧ Forall (λ x, total_cost_of_ownership (tco best)
                    <= total_cost_of_ownership (tco x)) post)
  ∧ best_value [] = Raise ValueError.
Proof.
  split; [|reflexivity].
  intros Hne. unfold best_value.
  destruct scored_vehicles as [|x l]; [done|].
  change (take 10 (x :: l)) with (x :: take 9 l).
  generalize (take 9 l). clear. intros l.
  cbn [py_min_key].
  assert (H : ∀ (seen : list ScoredVehicle) best rest,
    (∃ pre post, seen = (pre ++ best :: post)%list
       ∧ Forall (λ y, total_cost_of_ownership (tco best)
                      < total_cost_of_ownership (tco y)) pre
       ∧ Forall (λ y, total_cost_of_ownership (tco best)
                      <= total_cost_of_ownership (tco y)) post) →
    ∃ pre post,
      (seen ++ rest)%list
      = (pre ++ min_from (λ y, total_cost_of_ownership (tco y)) best rest
             :: post)%list
      ∧ Forall (λ y, total_cost_of_ownership
                       (tco (min_from (λ y, total_cost_of_ownership (tco y))
                                      best rest))
                     < total_cost_of_ownership (tco y)) pre
      ∧ Forall (λ y, total_cost_of_ownership
                       (tco (min_from (λ y, total_cost_of_ownership (tco y))
                                      best rest))
                     <= total_cost_of_ownership (tco y)) post).
  { intros seen best rest. revert seen best.
    induction rest as [|y rest IH]; intros seen best (pre & post & -> & Hpre & Hpost).
    - exists pre, post. by rewrite app_nil_r.
    - cbn [min_from].
      replace ((pre ++ best :: post) ++ y :: rest)%list
        with (((pre ++ best :: post) ++ [y]) ++ rest)%list
        by (by rewrite <- !app_assoc).
      apply IH.
      destruct (total_cost_of_ownership (tco y)
                <? total_cost_of_ownership (tco best)) eqn:Hcmp;
        [apply Qltb_true in Hcmp | apply Qltb_false in Hcmp].
      + exists (pre ++ best :: post)%list, []. split_and!.
        * done.
        * apply Forall_app. split; [|constructor; [done|]].
          -- eapply Forall_impl; [exact Hpre|]. intros z Hz. cbv beta in *. lra.
          -- eapply Forall_impl; [exact Hpost|]. intros z Hz. cbv beta in *. lra.
        * constructor.
      + exists pre, (post ++ [y])%list. split_and!.
        * by rewrite <- app_assoc.
        * done.
        * apply Forall_app. split; [done|]. by repeat constructor. }
  destruct (H [x] x l) as (pre & post & Heq & Hpre & Hpost).
  { exists [], []. split_and!; [done | constructor | constructor]. }
  exists (min_from (λ y, total_cost_of_ownership (tco y)) x l), pre, post.
  split_and!; done.
Qed.

(** ** Catalog import *)

Example load_vehicle_database_ascii :
  load_vehicle_database strip_ascii lower_ascii
    [named "Tesla Model 3"; named "Kia EV6"] true
    (Some [named "  tesla model 3 "; named "BYD Seal"; named "   ";
           named "byd seal"; named "Lucid Air"])
  = ([named "Tesla Model 3"; named "Kia EV6"; named "BYD Seal";
      named "Lucid Air"], 2%nat, 2%nat).
Proof. vm_compute. reflexivity. Qed.

#[local] Set Warnings "-clear-no-such-hyp".

Section SyncProperties.
Context (strip lower : string → string).

#[local] Abbreviation norm := (normalized_name strip lower).
#[local] Abbreviation body := (sync_body strip lower).
#[local] Abbreviation named_of := (named_entries strip).

(** What the loop over [sync_list] does to its four locals, when
    [existing_names] holds the normalized names of [vehicles_data]. *)
Lemma sync_loop_spec sync_list : ∀ vd (names : gset string) a s vd' names' a' s',
  names = list_to_set (norm <$> vd) →
  foldl body (vd, names, a, s) sync_list = (vd', names', a', s') →
  ∃ new,
    vd' = (vd ++ new)%list
    ∧ new `sublist_of` sync_list
    ∧ names' = list_to_set (norm <$> vd')
    ∧ a' = (a + length new)%nat
    ∧ (a' + s' = a + s + length (named_of sync_list))%nat
    ∧ Forall (λ e, strip (get (name e) "") ≠ "" ∧ norm e ∉ names) new
    ∧ NoDup (norm <$> new)
    ∧ Forall (λ e, strip (get (name e) "") ≠ "" → norm e ∈ names') sync_list.
Proof.
  induction sync_list as [|e sync_list IH];
    intros vd names a s vd' names' a' s' Hnames Hfold; cbn [foldl] in Hfold.
  - injection Hfold as <- <- <- <-. exists [].
    rewrite app_nil_r.
    split_and!; first [done | cbn; lia | constructor].
  - unfold named_entries. rewrite filter_cons. fold (named_entries strip sync_list).
    unfold sync_body at 2 in Hfold.
    case_bool_decide as Hname.
    + destruct (IH _ _ _ _ _ _ _ _ Hnames Hfold)
        as (new & -> & Hsub & Hnames' & -> & Hcount & Hnew & Hnodup & Hall).
      exists new. rewrite decide_False by (by intros ?).
      split_and!; try done; [by apply sublist_cons|].
      constructor; [done|exact Hall].
    + rewrite decide_True by done. cbn [length].
      case_bool_decide as Hin.
      * destruct (IH _ _ _ _ _ _ _ _ Hnames Hfold)
          as (new & -> & Hsub & Hnames' & -> & Hcount & Hnew & Hnodup & Hall).
        exists new. split_and!; try done; [by apply sublist_cons | lia |].
        constructor; [|exact Hall]. intros _.
        rewrite Hnames', fmap_app, list_to_set_app_L, <- Hnames.
        apply elem_of_union_l. exact Hin.
      * assert (Hnames1 : names ∪ {[lower (strip (get (name e) ""))]}
                          = list_to_set (norm <$> (vd ++ [e])%list)).
        { rewrite fmap_app, list_to_set_app_L, <- Hnames. cbn.
          unfold normalized_name. set_solver. }
        destruct (IH _ _ _ _ _ _ _ _ Hnames1 Hfold)
          as (new & -> & Hsub & Hnames' & -> & Hcount & Hnew & Hnodup & Hall).
        exists (e :: new). split_and!.
        -- by rewrite <- app_assoc.
        -- by apply sublist_skip || by constructor.
        -- done.
        -- cbn [length]. lia.
        -- lia.
        -- constructor; [done|].
           eapply Forall_impl; [exact Hnew|].
           intros e' [Hne Hnotin]. split; [done|]. set_solver.
        -- cbn. constructor; [|exact Hnodup].
           intros Hdup. apply list_elem_of_fmap in Hdup as (e' & Heq & He').
           rewrite Forall_forall in Hnew. destruct (Hnew e' He') as [_ Hnotin].
           apply Hnotin. rewrite <- Heq. unfold normalized_name. set_solver.
        -- constructor; [|exact Hall]. intros _.
           rewrite Hnames', <- app_assoc, fmap_app, list_to_set_app_L. cbn.
           unfold normalized_name. set_solver.
Qed.

(** When every named entry is already known, the loop only counts. *)
Lemma sync_loop_all_known sync_list : ∀ vd (names : gset string) a s,
  Forall (λ e, strip (get (name e) "") ≠ "" → norm e ∈ names) sync_list →
  foldl body (vd, names, a, s) sync_list
  = (vd, names, a, (s + length (named_of sync_list))%nat).
Proof.
  induction sync_list as [|e sync_list IH]; intros vd names a s Hall.
  - cbn. by rewrite Nat.add_0_r.
  - inversion Hall as [|? ? He Hrest]; subst. cbn [foldl].
    unfold named_entries. rewrite filter_cons. fold (named_entries strip sync_list).
    unfold sync_body at 2. case_bool_decide as Hname.
    + rewrite decide_False by (by intros ?). by apply IH.
    + rewrite decide_True by done.
      rewrite bool_decide_eq_true_2 by (by apply He).
      rewrite IH by done. cbn [length]. f_equal. lia.
Qed.

(** The import as a whole: what is appended, and that the names stay
    apart. *)
Lemma load_vehicle_database_spec vehicles_data sync_list :
  ∃ new added skipped,
    load_vehicle_database strip lower vehicles_data true (Some sync_list)
    = ((vehicles_data ++ new)%list, added, skipped)
    ∧ new `sublist_of` sync_list
    ∧ added = length new
    ∧ (added + skipped)%nat = length (named_of sync_list)
    ∧ Forall (λ e, strip (get (name e) "") ≠ ""
                   ∧ norm e ∉ norm <$> vehicles_data) new
    ∧ NoDup (norm <$> new)
    ∧ Forall (λ e, strip (get (name e) "") ≠ "" →
                   norm e ∈ norm <$> (vehicles_data ++ new)%list) sync_list.
Proof.
  unfold load_vehicle_database. cbv zeta.
  destruct (foldl body _ sync_list) as [[[vd' names'] a'] s'] eqn:Hfold.
  destruct (sync_loop_spec _ _ _ _ _ _ _ _ _ eq_refl Hfold)
    as (new & -> & Hsub & Hnames' & -> & Hcount & Hnew & Hnodup & Hall).
  exists new, (length new), s'. split_and!; try done.
  - eapply Forall_impl; [exact Hnew|]. intros e [Hne Hnotin].
    split; [done|]. by rewrite elem_of_list_to_set in Hnotin.
  - eapply Forall_impl; [exact Hall|]. intros e He Hne.
    specialize (He Hne). by rewrite Hnames', elem_of_list_to_set in He.
Qed.

(** X22. Importing appends to the static list, in file order, some of the
    entries of the file and changes nothing else; [added] counts the entries
    appended and [added + skipped] the entries of the file that have a name,
    so never more than the file holds. Without the option, or without the
    file, the static list comes back with both counts 0. *)
Theorem load_vehicle_database_appends_and_counts vehicles_data sync_list :
  (∃ new added skipped,
     load_vehicle_database strip lower vehicles_data true (Some sync_list)
     = ((vehicles_data ++ new)%list, added, skipped)
     ∧ new `sublist_of` sync_list
     ∧ added = length new
     ∧ (added + skipped)%nat = length (named_of sync_list)
     ∧ (added + skipped ≤ length sync_list)%nat)
  ∧ load_vehicle_database strip lower vehicles_data true None
    = (vehicles_data, 0%nat, 0%nat)
  ∧ load_vehicle_database strip lower vehicles_data false (Some sync_list)
    = (vehicles_data, 0%nat, 0%nat).
Proof.
  split; [|by split].
  destruct (load_vehicle_database_spec vehicles_data sync_list)
    as (new & added & skipped & Heq & Hsub & Hadded & Hcount & _).
  exists new, added, skipped. split_and!; try done.
  rewrite Hcount. unfold named_entries. apply length_filter.
Qed.

(** X23. No imported entry brings a name that is already there: each
    appended entry has a name that is not empty after stripping and that
    differs, stripped and lower-cased, from the names of the static list
    and of the other appended entries. A static list without duplicate
    names stays without duplicates. *)
Theorem load_vehicle_database_names_stay_distinct vehicles_data sync_list :
  ∃ new added skipped,
    load_vehicle_database strip lower vehicles_data true (Some sync_list)
    = ((vehicles_data ++ new)%list, added, skipped)
    ∧ Forall (λ e, strip (get (name e) "") ≠ ""
                   ∧ norm e ∉ norm <$> vehicles_data) new
    ∧ NoDup (norm <$> new)
    ∧ (NoDup (norm <$> vehicles_data) →
       NoDup (norm <$> (vehicles_data ++ new)%list)).
Proof.
  destruct (load_vehicle_database_spec vehicles_data sync_list)
    as (new & added & skipped & Heq & _ & _ & _ & Hnew & Hnodup & _).
  exists new, added, skipped. split_and!; try done.
  intros Hbase. rewrite fmap_app. apply NoDup_app. split_and!; try done.
  intros n Hn Hn'. apply list_elem_of_fmap in Hn' as (e & -> & He).
  rewrite Forall_forall in Hnew. by destruct (Hnew e He).
Qed.

(** X24. Importing the same file a second time appends nothing: the list
    is unchanged, [added] is 0, and every named entry of the file is counted
    as skipped. *)
Theorem load_vehicle_database_second_import_adds_nothing vehicles_data sync_list :
  ∃ merged added skipped,
    load_vehicle_database strip lower vehicles_data true (Some sync_list)
    = (merged, added, skipped)
    ∧ load_vehicle_database strip lower merged true (Some sync_list)
      = (merged, 0%nat, (added + skipped)%nat).
Proof.
  destruct (load_vehicle_database_spec vehicles_data sync_list)
    as (new & added & skipped & Heq & _ & _ & Hcount & _ & _ & Hall).
  exists (vehicles_data ++ new)%list, added, skipped. split; [exact Heq|].
  unfold load_vehicle_database. cbv zeta.
  rewrite sync_loop_all_known.
  - by rewrite Hcount.
  - eapply Forall_impl; [exact Hall|]. intros e He Hne.
    rewrite elem_of_list_to_set. by apply He.
Qed.

End SyncProperties.

Lemma load_vehicle_database_ascii_second_import :
  ∃ merged added skipped,
    load_vehicle_database strip_ascii lower_ascii
      [named "Tesla Model 3"; named "Kia EV6"] true
      (Some [named "  tesla model 3 "; named "BYD Seal"; named "   ";
             named "byd seal"; named "Lucid Air"])
    = (merged, added, skipped)
    ∧ load_vehicle_database strip_ascii lower_ascii merged true
        (Some [named "  tesla model 3 "; named "BYD Seal"; named "   ";
               named "byd seal"; named "Lucid Air"])
      = (merged, 0%nat, 4%nat).
Proof. eexists _, _, _. split; vm_compute; reflexivity. Qed.

(** ** Monotonicity of the score *)

Lemma round_half_even_mono x y : x <= y → (round_half_even x ≤ round_half_even y)%Z.
Proof.
  intros Hxy.
  pose proof (round_half_even_spec x) as (Hx0 & Hx1 & Hxlt & Hxgt & Hxeq).
  pose proof (round_half_even_spec y) as (Hy0 & Hy1 & Hylt & Hygt & Hyeq).
  pose proof (round_half_even_floor x) as [_ Hxhi].
  pose proof (round_half_even_floor y) as [Hylo _].
  cbv zeta in *.
  pose proof (Qfloor_resp_le _ _ Hxy) as Hfloor.
  destruct (Z.eq_dec (Qfloor x) (Qfloor y)) as [Heq|Hne]; [|lia].
  rewrite Heq in *.
  destruct (Q_dec (x - inject_Z (Qfloor y)) 0.5) as [[Hlow|Hhigh]|Hhalf].
  - rewrite (Hxlt Hlow). exact Hylo.
  - rewrite (Hxgt Hhigh), Hygt by lra. lia.
  - rewrite (Hxeq Hhalf).
    destruct (Q_dec (y - inject_Z (Qfloor y)) 0.5) as [[Hlow'|Hhigh']|Hhalf'].
    + lra.
    + rewrite (Hygt Hhigh'). destruct (Z.even _); lia.
    + rewrite (Hyeq Hhalf'). lia.
Qed.

Lemma py_round_1_mono x y : x <= y → py_round x 1 <= py_round y 1.
Proof.
  intros Hxy. unfold py_round. change (inject_Z (10 ^ 1)) with 10.
  assert (H : (round_half_even (x * 10) ≤ round_half_even (y * 10))%Z)
    by (apply round_half_even_mono; lra).
  rewrite Zle_Qle in H.
  apply Qle_shift_div_l; [lra|].
  assert (Hdiv : inject_Z (round_half_even (x * 10)) / 10 * 10
                 == inject_Z (round_half_even (x * 10))) by field.
  rewrite Hdiv. exact H.
Qed.

Lemma py_min_mono a a' b : a <= a' → py_min a b <= py_min a' b.
Proof. intros Ha. unfold py_min. qcompare; lra. Qed.

(** X25. Each ladder goes the right way: more range, more charging
    power or more cargo volume never lowers the category score, and neither
    does a lower consumption or a shorter acceleration time, whatever the
    daily commute and the requested cargo volume are. *)
Theorem ladders_are_monotone v v' p :
  (get (range_km v) 0 <= get (range_km v') 0 →
   range_score v p <= range_score v' p)
  ∧ (get (dc_charging_kw v) 0 <= get (dc_charging_kw v') 0 →
     charging_score v <= charging_score v')
  ∧ (get (kwh_per_100km v') 20 <= get (kwh_per_100km v) 20 →
     eff_score v <= eff_score v')
  ∧ (get (zero_to_100_kmh v') 8 <= get (zero_to_100_kmh v) 8 →
     accel_score v <= accel_score v')
  ∧ (get (cargo_liters v) 400 <= get (cargo_liters v') 400 →
     cargo_score v p <= cargo_score v' p).
Proof.
  unfold range_score, charging_score, eff_score, accel_score, cargo_score.
  split_and!; intros Hle; qcompare; lra.
Qed.

(** X26. With weights that are not negative, a vehicle that is at least
    as good in each of the eight categories, with at least the same brand
    bonus, gets a final score that is at least as high. *)
Theorem final_score_monotone_in_categories v v' p :
  nonneg_weights p →
  range_score v p <= range_score v' p →
  charging_score v <= charging_score v' →
  eff_score v <= eff_score v' →
  accel_score v <= accel_score v' →
  safety_score v <= safety_score v' →
  reliability_subscore v <= reliability_subscore v' →
  cargo_score v p <= cargo_score v' p →
  tech_score v <= tech_score v' →
  bonus_of v p <= bonus_of v' p →
  ∃ r r', score_vehicle v p = Ok r ∧ score_vehicle v' p = Ok r'
    ∧ final_score r <= final_score r'.
Proof.
  intros (W1 & W2 & W3 & W4 & W5 & W6 & W7 & W8) H1 H2 H3 H4 H5 H6 H7 H8 Hb.
  destruct (score_vehicle_Ok v p) as (r & Hr & Hf & _).
  destruct (score_vehicle_Ok v' p) as (r' & Hr' & Hf' & _).
  exists r, r'. split_and!; [done..|]. rewrite Hf, Hf'.
  apply inject_Z_nonneg in W1, W2, W3, W4, W5, W6, W7, W8.
  assert (Htotal : weighted_total v p <= weighted_total v' p).
  { unfold weighted_total.
    pose proof (Qmult_le_compat_r _ _ _ H1 W1).
    pose proof (Qmult_le_compat_r _ _ _ H2 W2).
    pose proof (Qmult_le_compat_r _ _ _ H3 W3).
    pose proof (Qmult_le_compat_r _ _ _ H4 W4).
    pose proof (Qmult_le_compat_r _ _ _ H5 W5).
    pose proof (Qmult_le_compat_r _ _ _ H6 W6).
    pose proof (Qmult_le_compat_r _ _ _ H7 W7).
    pose proof (Qmult_le_compat_r _ _ _ H8 W8).
    lra. }
  apply py_round_1_mono, py_min_mono.
  apply Qplus_le_compat; [|exact Hb].
  destruct (max_possible p >? 0) eqn:Hmax; [|lra].
  apply Qgtb_true in Hmax.
  apply Qmult_le_compat_r; [|lra].
  apply Qmult_le_compat_r; [exact Htotal|].
  apply Qlt_le_weak, Qinv_lt_0_compat, Hmax.
Qed.

Lemma final_score_monotone_in_categories_witness :
  ∃ r r', score_vehicle tesla_model_3_sr default_preferences = Ok r
    ∧ score_vehicle flagship default_preferences = Ok r'
    ∧ final_score r <= final_score r'.
Proof.
  apply (final_score_monotone_in_categories tesla_model_3_sr flagship
           default_preferences);
    try (vm_compute; discriminate).
  unfold nonneg_weights. cbn. lia.
Defined.
